(** * Weather Now (src/App.js): the weather-code classifier and the request
    orchestrator, embedded in Rocq.

    JavaScript strings are sequences of UTF-16 code units, JSON values are an
    inductive type, the React state of [App] is a record, and the body of the
    asynchronous [fetchWeatherForCity] is written in a small monad that
    threads the state and an event log and carries the three ways a statement
    can complete (normally, by [return], by [throw]). *)

From Stdlib Require Import ZArith NArith QArith Ascii String DecimalString List Bool Lia.
From stdpp Require Import base tactics option list gmap.

Open Scope Z_scope.

(** ** Strings *)

(** A JavaScript string: its UTF-16 code units. *)
Definition jsstring : Type := list N.

(** An ASCII literal as a JavaScript string. *)
Definition js (s : string) : jsstring := List.map N_of_ascii (list_ascii_of_string s).

(** ** The classifier (App.js lines 12-57) *)

(** The object literal [map] of [weatherCodeToText], keyed by the integer
    weather code. *)
Definition weatherCodeMap : gmap Z jsstring :=
  list_to_map
    [ (0, js "Clear sky");
      (1, js "Mainly clear");
      (2, js "Partly cloudy");
      (3, js "Overcast");
      (45, js "Fog");
      (48, js "Depositing rime fog");
      (51, js "Light drizzle");
      (53, js "Moderate drizzle");
      (55, js "Dense drizzle");
      (56, js "Freezing drizzle");
      (57, js "Dense freezing drizzle");
      (61, js "Slight rain");
      (63, js "Moderate rain");
      (65, js "Heavy rain");
      (66, js "Freezing rain");
      (67, js "Heavy freezing rain");
      (71, js "Light snow");
      (73, js "Moderate snow");
      (75, js "Heavy snow");
      (77, js "Snow grains");
      (80, js "Slight rain showers");
      (81, js "Moderate rain showers");
      (82, js "Violent rain showers");
      (85, js "Slight snow showers");
      (86, js "Heavy snow showers");
      (95, js "Thunderstorm");
      (96, js "Thunderstorm with slight hail");
      (99, js "Thunderstorm with heavy hail") ].

(** [map[code] ?? "Unknown"]: every value of the table is a string, so the
    nullish fallback is taken exactly when the key is missing. *)
Definition weatherCodeToText (code : Z) : jsstring :=
  default (js "Unknown") (weatherCodeMap !! code).

(** The string literals returned by [weatherCodeToEmoji], code unit by code
    unit as they stand in App.js (lines 48-56). *)
Definition emoji_clear : jsstring :=
  [0x201a; 0xf2; 0xc4; 0xd4; 0x220f; 0xe8]%N.
Definition emoji_partly_cloudy : jsstring :=
  [0xf8ff; 0xfc; 0xe5; 0xa7; 0xd4; 0x220f; 0xe8]%N.
Definition emoji_overcast : jsstring :=
  [0x201a; 0xf2; 0xc5; 0xd4; 0x220f; 0xe8]%N.
Definition emoji_fog : jsstring :=
  [0xf8ff; 0xfc; 0xe5; 0xb4; 0xd4; 0x220f; 0xe8]%N.
Definition emoji_rain : jsstring :=
  [0xf8ff; 0xfc; 0xe5; 0xdf; 0xd4; 0x220f; 0xe8]%N.
Definition emoji_freezing_rain : jsstring :=
  [0xf8ff; 0xfc; 0xdf; 0xe4; 0xf8ff; 0xfc; 0xe5; 0xdf; 0xd4; 0x220f; 0xe8]%N.
Definition emoji_snow : jsstring :=
  [0x201a; 0xf9; 0xd1; 0xd4; 0x220f; 0xe8]%N.
Definition emoji_thunderstorm : jsstring :=
  [0x201a; 0xf5; 0xe0; 0xd4; 0x220f; 0xe8]%N.
Definition emoji_default : jsstring :=
  [0xf8ff; 0xfc; 0xee; 0xdc]%N.

(** [Array.prototype.includes] on an array literal of integers. *)
Definition includes (xs : list Z) (code : Z) : bool := existsb (Z.eqb code) xs.

Definition weatherCodeToEmoji (code : Z) : jsstring :=
  if code =? 0 then emoji_clear
  else if includes [1; 2] code then emoji_partly_cloudy
  else if code =? 3 then emoji_overcast
  else if includes [45; 48] code then emoji_fog
  else if includes [51; 53; 55; 61; 63; 65; 80; 81; 82] code then emoji_rain
  else if includes [56; 57; 66; 67] code then emoji_freezing_rain
  else if includes [71; 73; 75; 77; 85; 86] code then emoji_snow
  else if includes [95; 96; 99] code then emoji_thunderstorm
  else emoji_default.

(** The same chain as data: one membership rule per [if], in source order.
    The two [code === k] tests are membership in a singleton. *)
Definition Rule : Type := list Z * jsstring.

Definition emoji_rules : list Rule :=
  [ ([0], emoji_clear);
    ([1; 2], emoji_partly_cloudy);
    ([3], emoji_overcast);
    ([45; 48], emoji_fog);
    ([51; 53; 55; 61; 63; 65; 80; 81; 82], emoji_rain);
    ([56; 57; 66; 67], emoji_freezing_rain);
    ([71; 73; 75; 77; 85; 86], emoji_snow);
    ([95; 96; 99], emoji_thunderstorm) ].

(** Evaluate a list of rules in the order given; the first rule whose set
    contains the code wins, and the default symbol is returned when none does. *)
Fixpoint first_match (rules : list Rule) (code : Z) : jsstring :=
  match rules with
  | [] => emoji_default
  | (codes, symbol) :: rest =>
      if includes codes code then symbol else first_match rest code
  end.

Definition sets_disjoint (xs ys : list Z) : Prop :=
  forall c, includes xs c = true -> includes ys c = true -> False.

Fixpoint pairwise_disjoint (rules : list Rule) : Prop :=
  match rules with
  | [] => True
  | r :: rest => Forall (fun r' => sets_disjoint r.1 r'.1) rest /\ pairwise_disjoint rest
  end.

(** Number of rules of a list that a code matches. *)
Definition matching_rules (rules : list Rule) (code : Z) : nat :=
  length (List.filter (fun r => includes r.1 code) rules).

(** ** JSON values and the parts of the language the orchestrator uses *)

(** A JavaScript number as JSON can deliver it: the exact value of a finite
    double, negative zero, or an infinity (from an overflowing literal); NaN is
    kept for completeness.  No arithmetic is done on numbers here. *)
Inductive JsNumber : Type :=
  | NumFinite (q : Q)
  | NumNegZero
  | NumInfinity (negative : bool)
  | NumNaN.

#[warnings="-register-all"] Inductive JsValue : Type :=
  | JUndefined
  | JNull
  | JBool (b : bool)
  | JNum (n : JsNumber)
  | JStr (s : jsstring)
  | JArr (elems : list JsValue)
  | JObj (fields : list (jsstring * JsValue)).

(** A property key: a name, or an array index as in [results[0]]. *)
Inductive PropKey : Type :=
  | PName (name : jsstring)
  | PIndex (i : nat).

(** The exceptions the engine itself raises on the values above. *)
Inductive Fault : Type :=
  | ReadOfNullish (v : JsValue) (key : PropKey)
  | DestructureNullish (v : JsValue)
  | NoPrimitiveValue (v : JsValue).

(** An [Error] object; only its [message] is ever read (line 103). *)
Record JsError : Type := Error_ { message : jsstring }.

Inductive Result (A : Type) : Type :=
  | Ok (a : A)
  | Raise (err : JsError).
Arguments Ok {A} a.
Arguments Raise {A} err.

#[global] Instance Result_ret : MRet Result := fun A a => Ok a.
#[global] Instance Result_bind : MBind Result := fun A B k r =>
  match r with
  | Ok a => k a
  | Raise e => Raise e
  end.

(** The body of an HTTP response as [res.json()] delivers it. *)
Inductive Body : Type :=
  | BodyJson (v : JsValue)
  | BodyUnreadable (err : JsError).

Record Response : Type := { ok : bool; body : Body }.

Inductive FetchResult : Type :=
  | FetchRejected (err : JsError)
  | FetchResolved (res : Response).

(** What the code takes from its host: URI encoding (which throws a URIError
    on a lone surrogate), number formatting, the text of engine-raised type
    errors, and the network.  [fetch k url] is the outcome of the request for
    [url] issued after [k] earlier requests. *)
Record Runtime : Type := {
  encodeURIComponent : jsstring -> Result jsstring;
  numberToString : JsNumber -> jsstring;
  typeErrorMessage : Fault -> jsstring;
  fetch : nat -> jsstring -> FetchResult
}.

Fixpoint str_eqb (a b : jsstring) : bool :=
  match a, b with
  | [], [] => true
  | x :: a', y :: b' => (x =? y)%N && str_eqb a' b'
  | _, _ => false
  end.

(** Own-property lookup in a parsed JSON object. *)
Fixpoint obj_lookup (key : jsstring) (fields : list (jsstring * JsValue)) : option JsValue :=
  match fields with
  | [] => None
  | (k, v) :: rest => if str_eqb k key then Some v else obj_lookup key rest
  end.

(** The property name an index stands for. *)
Definition index_name (i : nat) : jsstring := js (NilZero.string_of_uint (Nat.to_uint i)).

Definition number_of_nat (n : nat) : JsNumber := NumFinite (inject_Z (Z.of_nat n)).

Definition num_is_zero (n : JsNumber) : bool :=
  match n with
  | NumFinite q => Qeq_bool q 0
  | NumNegZero => true
  | _ => false
  end.

(** ToBoolean. *)
Definition truthy (v : JsValue) : bool :=
  match v with
  | JUndefined | JNull => false
  | JBool b => b
  | JNum NumNaN => false
  | JNum n => negb (num_is_zero n)
  | JStr s => negb (str_eqb s [])
  | JArr _ | JObj _ => true
  end.

(** [v === 0]. *)
Definition strict_equal_zero (v : JsValue) : bool :=
  match v with
  | JNum n => num_is_zero n
  | _ => false
  end.

(** [String.prototype.trim]: the WhiteSpace and LineTerminator code points of
    ECMAScript, all of which are single code units. *)
Definition is_whitespace (c : N) : bool :=
  ((c =? 0x9) || (c =? 0xA) || (c =? 0xB) || (c =? 0xC) || (c =? 0xD) || (c =? 0x20)
   || (c =? 0xA0) || (c =? 0x1680) || ((0x2000 <=? c) && (c <=? 0x200A))
   || (c =? 0x2028) || (c =? 0x2029) || (c =? 0x202F) || (c =? 0x205F)
   || (c =? 0x3000) || (c =? 0xFEFF))%N.

Fixpoint trim_start (s : jsstring) : jsstring :=
  match s with
  | [] => []
  | c :: rest => if is_whitespace c then trim_start rest else s
  end.

Definition trim (s : jsstring) : jsstring := rev (trim_start (rev (trim_start s))).

(** [a || b] on strings. *)
Definition or_else (a b : jsstring) : jsstring := if str_eqb a [] then b else a.

Section Language.

Variable rt : Runtime.

Definition type_error (f : Fault) : JsError := Error_ (typeErrorMessage rt f).

(** [v.name] and [v[i]] for the property names the code reads ([results],
    [length], [current_weather], [latitude], [longitude], [name], [country],
    [admin1], [0]); none of them is inherited from a prototype, so only own
    properties, [length] and the elements of arrays and strings matter. *)
Definition get_prop (v : JsValue) (key : PropKey) : Result JsValue :=
  match v with
  | JUndefined | JNull => Raise (type_error (ReadOfNullish v key))
  | JBool _ | JNum _ => Ok JUndefined
  | JStr s =>
      match key with
      | PName name =>
          if str_eqb name (js "length") then Ok (JNum (number_of_nat (length s)))
          else Ok JUndefined
      | PIndex i =>
          match s !! i with
          | Some c => Ok (JStr [c])
          | None => Ok JUndefined
          end
      end
  | JArr elems =>
      match key with
      | PName name =>
          if str_eqb name (js "length") then Ok (JNum (number_of_nat (length elems)))
          else Ok JUndefined
      | PIndex i => Ok (default JUndefined (elems !! i))
      end
  | JObj fields =>
      match key with
      | PName name => Ok (default JUndefined (obj_lookup name fields))
      | PIndex i => Ok (default JUndefined (obj_lookup (index_name i) fields))
      end
  end.

(** The check a destructuring pattern makes on its right-hand side. *)
Definition require_object_coercible (v : JsValue) : Result () :=
  match v with
  | JUndefined | JNull => Raise (type_error (DestructureNullish v))
  | _ => Ok ()
  end.

(** ToString, as applied by a template literal and by [+] with a string
    operand.  An array is joined with commas (null and undefined elements
    give the empty string); a plain object gives ["[object Object]"] unless an
    own [toString] property, never callable in JSON, hides the inherited
    method, in which case the conversion throws. *)
Fixpoint to_string (v : JsValue) : Result jsstring :=
  match v with
  | JUndefined => Ok (js "undefined")
  | JNull => Ok (js "null")
  | JBool b => Ok (if b then js "true" else js "false")
  | JNum n => Ok (numberToString rt n)
  | JStr s => Ok s
  | JArr elems =>
      (fix join (first : bool) (l : list JsValue) : Result jsstring :=
         match l with
         | [] => Ok []
         | x :: rest =>
             match
               match x with
               | JUndefined | JNull => Ok []
               | _ => to_string x
               end
             with
             | Raise e => Raise e
             | Ok s =>
                 match join false rest with
                 | Raise e => Raise e
                 | Ok t => Ok ((if first then [] else js ",") ++ s ++ t)
                 end
             end
         end) true elems
  | JObj fields =>
      match obj_lookup (js "toString") fields with
      | Some _ => Raise (type_error (NoPrimitiveValue v))
      | None => Ok (js "[object Object]")
      end
  end.

(** The template literal of line 97:
    the resolved name, then a comma and [admin1] if [admin1] is truthy (the
    empty string otherwise), then a comma and the country. *)
Definition cityName_template (resolvedName admin1 country : JsValue) : Result jsstring :=
  n ← to_string resolvedName;
  a ← (if truthy admin1 then s ← to_string admin1; Ok (js ", " ++ s) else Ok []);
  c ← to_string country;
  Ok (n ++ a ++ js ", " ++ c).

End Language.

(** ** The component state and the monad of the handlers *)

(** The object passed to [setWeather] (lines 96-101); [current] is the
    [current_weather] payload, passed through as received. *)
Record Weather : Type := {
  cityName : jsstring;
  latitude : JsValue;
  longitude : JsValue;
  current : JsValue
}.

(** The four [useState] cells of [App] (lines 60-63); [None] is [null]. *)
Record AppState : Type := {
  city : jsstring;
  weather : option Weather;
  loading : bool;
  error : option jsstring
}.

(** What a handler does to the outside, in the order it does it. *)
Inductive Event : Type :=
  | EvPreventDefault
  | EvSetLoading (b : bool)
  | EvSetError (e : option jsstring)
  | EvSetWeather (w : option Weather)
  | EvFetch (url : jsstring).

(** The state a handler runs in: the component state and the log of the
    events so far, newest first. *)
Record World : Type := { ui : AppState; log : list Event }.

Inductive Completion (A : Type) : Type :=
  | Normal (a : A)
  | Returned
  | Thrown (err : JsError).
Arguments Normal {A} a.
Arguments Returned {A}.
Arguments Thrown {A} err.

Definition M (A : Type) : Type := World -> Completion A * World.

#[global] Instance M_ret : MRet M := fun A a w => (Normal a, w).
#[global] Instance M_bind : MBind M := fun A B k m w =>
  match m w with
  | (Normal a, w') => k a w'
  | (Returned, w') => (Returned, w')
  | (Thrown e, w') => (Thrown e, w')
  end.

Definition throw {A} (e : JsError) : M A := fun w => (Thrown e, w).

(** The statement [return;]. *)
Definition return_ {A} : M A := fun w => (Returned, w).

Definition lift {A} (r : Result A) : M A := fun w =>
  match r with
  | Ok a => (Normal a, w)
  | Raise e => (Thrown e, w)
  end.

Definition emit (e : Event) (f : AppState -> AppState) : M () := fun w =>
  (Normal (), {| ui := f (ui w); log := e :: log w |}).

Definition setWeather (v : option Weather) : M () :=
  emit (EvSetWeather v)
    (fun s => {| city := city s; weather := v; loading := loading s; error := error s |}).

Definition setLoading (b : bool) : M () :=
  emit (EvSetLoading b)
    (fun s => {| city := city s; weather := weather s; loading := b; error := error s |}).

Definition setError (e : option jsstring) : M () :=
  emit (EvSetError e)
    (fun s => {| city := city s; weather := weather s; loading := loading s; error := e |}).

Definition preventDefault : M () := emit EvPreventDefault (fun s => s).

(** Reading the [city] cell. *)
Definition read_city : M jsstring := fun w => (Normal (city (ui w)), w).

(** The [finally] block, run after a completion [r] of what precedes it; an
    abrupt completion of the block itself replaces [r]. *)
Definition run_finally {A} (fin : M ()) (r : Completion A * World) : Completion A * World :=
  let (c, w) := r in
  let (c', w') := fin w in
  match c' with
  | Normal _ => (c, w')
  | Returned => (Returned, w')
  | Thrown e => (Thrown e, w')
  end.

(** [try { body } catch (err) { handler } finally { fin }]. *)
Definition try_catch_finally {A} (body : M A) (handler : JsError -> M A) (fin : M ()) : M A :=
  fun w =>
    let (c, w') := body w in
    run_finally fin
      match c with
      | Thrown e => handler e w'
      | _ => (c, w')
      end.

(** A function body seen from its caller: [return;] ends the call normally. *)
Definition call (m : M ()) : M () := fun w =>
  match m w with
  | (Returned, w') => (Normal (), w')
  | r => r
  end.

(** A call of an async function whose promise is dropped (line 116): nothing
    it throws reaches the caller.  The events of the callee are laid out as
    one uninterrupted run. *)
Definition call_async (m : M ()) : M () := fun w => (Normal (), (m w).2).

Fixpoint requests_issued (l : list Event) : nat :=
  match l with
  | [] => 0
  | EvFetch _ :: rest => S (requests_issued rest)
  | _ :: rest => requests_issued rest
  end.

(** The URLs requested in a chronological list of events. *)
Fixpoint requests (evs : list Event) : list jsstring :=
  match evs with
  | [] => []
  | EvFetch url :: rest => url :: requests rest
  | _ :: rest => requests rest
  end.

(** [evs], oldest first, is what was logged between [w] and [w']. *)
Definition emitted (w w' : World) (evs : list Event) : Prop :=
  log w' = rev evs ++ log w.

Definition is_set_loading (e : Event) : bool :=
  match e with
  | EvSetLoading _ => true
  | _ => false
  end.

(** The template literals of lines 72-74 and 88, over the converted
    substitutions. *)
Definition geoUrl (encoded : jsstring) : jsstring :=
  js "https://geocoding-api.open-meteo.com/v1/search?name=" ++ encoded ++ js "&count=1".

Definition forecastUrl (lat lon : jsstring) : jsstring :=
  js "https://api.open-meteo.com/v1/forecast?latitude=" ++ lat ++ js "&longitude=" ++ lon
    ++ js "&current_weather=true&timezone=auto".

(** The message strings of App.js. *)
Definition msg_geocoding_failed : jsstring := js "Geocoding request failed".
Definition msg_city_not_found : jsstring :=
  js "City not found. Try another name (e.g., 'Delhi', 'San Francisco').".
Definition msg_weather_failed : jsstring := js "Weather request failed".
Definition msg_no_current : jsstring := js "No current weather available".
Definition msg_something_wrong : jsstring := js "Something went wrong".
Definition msg_enter_city : jsstring := js "Please enter a city name.".

Section App.

Variable rt : Runtime.

(** [await fetch(url)]. *)
Definition await_fetch (url : jsstring) : M Response := fun w =>
  let w' := {| ui := ui w; log := EvFetch url :: log w |} in
  match fetch rt (requests_issued (log w)) url with
  | FetchRejected e => (Thrown e, w')
  | FetchResolved res => (Normal res, w')
  end.

(** [await res.json()]. *)
Definition await_json (res : Response) : M JsValue :=
  lift (match body res with
        | BodyJson v => Ok v
        | BodyUnreadable e => Raise e
        end).

(** Lines 70-101, the block of the [try]. *)
Definition fetchWeather_try (cityName : jsstring) : M () :=
  encoded ← lift (encodeURIComponent rt cityName);
  geoRes ← await_fetch (geoUrl encoded);
  (if negb (ok geoRes) then throw (Error_ msg_geocoding_failed) else mret ());;
  geoJson ← await_json geoRes;
  results ← lift (get_prop rt geoJson (PName (js "results")));
  empty ← (if negb (truthy results) then mret true
           else results' ← lift (get_prop rt geoJson (PName (js "results")));
                len ← lift (get_prop rt results' (PName (js "length")));
                mret (strict_equal_zero len));
  (if empty : bool then setError (Some msg_city_not_found);; return_ else mret ());;
  results0 ← lift (get_prop rt geoJson (PName (js "results")));
  top ← lift (get_prop rt results0 (PIndex 0));
  lift (require_object_coercible rt top);;
  latitude ← lift (get_prop rt top (PName (js "latitude")));
  longitude ← lift (get_prop rt top (PName (js "longitude")));
  resolvedName ← lift (get_prop rt top (PName (js "name")));
  country ← lift (get_prop rt top (PName (js "country")));
  admin1 ← lift (get_prop rt top (PName (js "admin1")));
  lat ← lift (to_string rt latitude);
  lon ← lift (to_string rt longitude);
  forecastRes ← await_fetch (forecastUrl lat lon);
  (if negb (ok forecastRes) then throw (Error_ msg_weather_failed) else mret ());;
  forecastJson ← await_json forecastRes;
  current ← lift (get_prop rt forecastJson (PName (js "current_weather")));
  (if negb (truthy current) then throw (Error_ msg_no_current) else mret ());;
  name ← lift (cityName_template rt resolvedName admin1 country);
  setWeather (Some {| cityName := name; latitude := latitude; longitude := longitude;
                      current := current |}).

(** Lines 65-107. *)
Definition fetchWeatherForCity (cityName : jsstring) : M () :=
  call (setLoading true;;
        setError None;;
        setWeather None;;
        try_catch_finally
          (fetchWeather_try cityName)
          (fun err => setError (Some (or_else (message err) msg_something_wrong)))
          (setLoading false)).

(** Lines 109-117. *)
Definition handleSubmit : M () :=
  call (preventDefault;;
        c ← read_city;
        let q := trim c in
        (if str_eqb q [] then setError (Some msg_enter_city);; return_ else mret ());;
        call_async (fetchWeatherForCity q)).

(** The world a handler leaves behind. *)
Definition after (m : M ()) (w : World) : World := (m w).2.

End App.

(** ** Concrete hosts and payloads used in the examples *)

(** Number formatting for the examples: the coordinates used below and the
    integers print as JavaScript prints them; any other fraction, which no
    example uses, prints as numerator and denominator. *)
Definition example_number_text (n : JsNumber) : jsstring :=
  match n with
  | NumFinite q =>
      if Qeq_bool q (103 # 2) then js "51.5"
      else if Qeq_bool q (-3 # 25) then js "-0.12"
      else if Qeq_bool q (977 # 20) then js "48.85"
      else if Qeq_bool q (47 # 20) then js "2.35"
      else if (Qden q =? 1)%positive then js (NilZero.string_of_int (Z.to_int (Qnum q)))
      else js (NilZero.string_of_int (Z.to_int (Qnum q))) ++ js "/"
             ++ js (NilZero.string_of_uint (Pos.to_uint (Qden q)))
  | NumNegZero => js "0"
  | NumInfinity negative => if negative then js "-Infinity" else js "Infinity"
  | NumNaN => js "NaN"
  end.

(** A host for examples: URI encoding is the identity (right for the
    unreserved ASCII queries used below), and the first request gets [geo],
    every later one [forecast]. *)
Definition example_host (geo forecast : FetchResult) : Runtime :=
  {| encodeURIComponent := fun s => Ok s;
     numberToString := example_number_text;
     typeErrorMessage := fun _ => js "TypeError";
     fetch := fun k _ => match k with O => geo | S _ => forecast end |}.

Definition json_ok (v : JsValue) : FetchResult :=
  FetchResolved {| ok := true; body := BodyJson v |}.

Definition http_failure : FetchResult :=
  FetchResolved {| ok := false; body := BodyJson (JObj []) |}.

Definition london_candidate : JsValue :=
  JObj [ (js "latitude", JNum (NumFinite (103 # 2)));
         (js "longitude", JNum (NumFinite (-3 # 25)));
         (js "name", JStr (js "London"));
         (js "country", JStr (js "United Kingdom")) ].

Definition london_geocoding : JsValue := JObj [ (js "results", JArr [london_candidate]) ].

Definition london_current : JsValue :=
  JObj [ (js "temperature", JNum (NumFinite 15));
         (js "windspeed", JNum (NumFinite 10));
         (js "winddirection", JNum (NumFinite 200));
         (js "weathercode", JNum (NumFinite 3));
         (js "time", JStr (js "2024-01-01T12:00")) ].

Definition london_forecast : JsValue := JObj [ (js "current_weather", london_current) ].

Definition london_weather : Weather :=
  {| cityName := js "London, United Kingdom";
     latitude := JNum (NumFinite (103 # 2));
     longitude := JNum (NumFinite (-3 # 25));
     current := london_current |}.

Definition initial_state (query : jsstring) : AppState :=
  {| city := query; weather := None; loading := false; error := None |}.

Definition initial_world (query : jsstring) : World :=
  {| ui := initial_state query; log := [] |}.

(** The component after a successful search for London, with the query box
    then set to [query]. *)
Definition world_showing_london (query : jsstring) : World :=
  {| ui := {| city := query; weather := Some london_weather; loading := false; error := None |};
     log := [] |}.

Definition paris_candidate (admin1 : option JsValue) : JsValue :=
  JObj ([ (js "latitude", JNum (NumFinite (977 # 20)));
          (js "longitude", JNum (NumFinite (47 # 20)));
          (js "name", JStr (js "Paris"));
          (js "country", JStr (js "France")) ]
          ++ match admin1 with
             | Some a => [ (js "admin1", a) ]
             | None => []
             end).

Definition paris_geocoding (admin1 : option JsValue) : JsValue :=
  JObj [ (js "results", JArr [paris_candidate admin1]) ].

(** ** The statements of the specification, as definitions *)

(** The display string as the specification words it: ["<name>, <admin1>,
    <country>"] when the admin region is present, ["<name>, <country>"] when
    it is absent. *)
Definition display_string_spec (name : jsstring) (admin1 : option jsstring) (country : jsstring)
  : jsstring :=
  match admin1 with
  | Some a => name ++ js ", " ++ a ++ js ", " ++ country
  | None => name ++ js ", " ++ country
  end.

(** A string is falsy exactly when it is empty: the admin regions that the
    truthiness test on [admin1] in line 97 lets through. *)
Definition nonempty (admin1 : option jsstring) : option jsstring :=
  match admin1 with
  | Some [] => None
  | other => other
  end.

(** The value the destructuring of line 85 binds to [admin1]: the string of
    the candidate, or [undefined] when the candidate has no such field. *)
Definition admin1_value (admin1 : option jsstring) : JsValue :=
  match admin1 with
  | Some a => JStr a
  | None => JUndefined
  end.

(** A forecast body without the current-conditions payload: a JSON object
    whose [current_weather] member is missing or null. *)
Definition lacks_current_weather (body : JsValue) : Prop :=
  exists fields,
    body = JObj fields
    /\ (obj_lookup (js "current_weather") fields = None
        \/ obj_lookup (js "current_weather") fields = Some JNull).

(** A geocoding body whose [results] array is missing or empty. *)
Definition results_missing_or_empty (body : JsValue) : Prop :=
  exists fields,
    body = JObj fields
    /\ (obj_lookup (js "results") fields = None
        \/ obj_lookup (js "results") fields = Some (JArr [])).

(** The messages of the hard errors, as opposed to the not-found message. *)
Definition hard_error_messages : list jsstring :=
  [ msg_geocoding_failed; msg_weather_failed; msg_no_current; msg_something_wrong;
    msg_enter_city ].

(** A computation that leaves the loading flag alone. *)
Definition quiet {A} (m : M A) : Prop :=
  forall w, exists mid,
    emitted w (m w).2 mid
    /\ Forall (fun e => is_set_loading e = false) mid
    /\ loading (ui (m w).2) = loading (ui w).

(** Two worlds that agree on all a search can depend on once it has cleared
    the outcome: the position in the network's sequence of answers and the
    stored outcome. *)
Definition same_outcome (w1 w2 : World) : Prop :=
  requests_issued (log w1) = requests_issued (log w2)
  /\ weather (ui w1) = weather (ui w2)
  /\ error (ui w1) = error (ui w2).

(** A computation that behaves alike in two such worlds. *)
Definition history_blind {A} (m : M A) : Prop :=
  forall w1 w2, same_outcome w1 w2 ->
    (m w1).1 = (m w2).1 /\ same_outcome (m w1).2 (m w2).2.

(** ** The rendered controls and the map link (lines 125-140 and 165) *)

(** What the form and the two conditional blocks show for a state: the
    [value] of the input, the [disabled] attribute and the label of the
    button, the text of the error box ([error && ...], so nothing for [null]
    and for the empty string), and whether the weather card is there
    ([weather && ...]). *)
Record Controls : Type := {
  input_value : jsstring;
  button_disabled : bool;
  button_label : jsstring;
  error_box : option jsstring;
  card_shown : bool
}.

Definition controls (s : AppState) : Controls :=
  {| input_value := city s;
     button_disabled := loading s;
     button_label := if loading s then js "Searching..." else js "Get Weather";
     error_box := match error s with
                  | Some text => if str_eqb text [] then None else Some text
                  | None => None
                  end;
     card_shown := match weather s with
                   | Some _ => true
                   | None => false
                   end |}.

(** The template literal of the map link over its converted substitutions. *)
Definition osmUrl (lat lon : jsstring) : jsstring :=
  js "https://www.openstreetmap.org/?mlat=" ++ lat ++ js "&mlon=" ++ lon
    ++ js "#map=10/" ++ lat ++ js "/" ++ lon.

(** The [href] of the map link (line 165): latitude and longitude of the
    stored weather are each converted twice, in the order they occur. *)
Definition map_href (rt : Runtime) (wt : Weather) : Result jsstring :=
  lat ← to_string rt (latitude wt);
  lon ← to_string rt (longitude wt);
  lat' ← to_string rt (latitude wt);
  lon' ← to_string rt (longitude wt);
  Ok (js "https://www.openstreetmap.org/?mlat=" ++ lat ++ js "&mlon=" ++ lon
        ++ js "#map=10/" ++ lat' ++ js "/" ++ lon').

(** ** The card: the coordinates line and the symbol (lines 144-146, 150) *)

(** What the card needs from its host beyond [Runtime]: the text of
    [Number.prototype.toFixed] with three digits, and the text of the error
    for calling something that is no function. *)
Record DisplayHost : Type := {
  toFixed3 : JsNumber -> jsstring;
  notAFunctionMessage : JsValue -> jsstring -> jsstring
}.

(** [v.toFixed(3)].  Only numbers have a [toFixed] method: reading it from
    [null] or [undefined] throws, and on any other JSON value the property is
    missing or, as an own member of an object, not callable, so that the call
    throws. *)
Definition call_toFixed3 (rt : Runtime) (h : DisplayHost) (v : JsValue) : Result jsstring :=
  match v with
  | JUndefined | JNull => Raise (type_error rt (ReadOfNullish v (PName (js "toFixed"))))
  | JNum n => Ok (toFixed3 h n)
  | _ => Raise (Error_ (notAFunctionMessage h v (js "toFixed")))
  end.

(** The separator between the two coordinates, code unit by code unit as it
    stands in line 145. *)
Definition coords_separator : jsstring := [0x20; 0x201a; 0xc4; 0xa2; 0x20]%N.

(** The text of the coordinates line (lines 144-146). *)
Definition coords_line (rt : Runtime) (h : DisplayHost) (wt : Weather) : Result jsstring :=
  lat ← call_toFixed3 rt h (latitude wt);
  lon ← call_toFixed3 rt h (longitude wt);
  Ok (js "Lat: " ++ lat ++ coords_separator ++ js "Lon: " ++ lon).

(** [v === k] for an integer literal [k]; [includes] compares the same way
    but for NaN, which is not among the literals. *)
Definition strict_equal_int (v : JsValue) (k : Z) : bool :=
  match v with
  | JNum (NumFinite q) => Qeq_bool q (inject_Z k)
  | JNum NumNegZero => k =? 0
  | _ => false
  end.

Definition includes_value (xs : list Z) (v : JsValue) : bool :=
  existsb (strict_equal_int v) xs.

(** [weatherCodeToEmoji] (lines 47-57) on an arbitrary value, as the card
    calls it. *)
Definition weatherCodeToEmoji_value (code : JsValue) : jsstring :=
  if strict_equal_int code 0 then emoji_clear
  else if includes_value [1; 2] code then emoji_partly_cloudy
  else if strict_equal_int code 3 then emoji_overcast
  else if includes_value [45; 48] code then emoji_fog
  else if includes_value [51; 53; 55; 61; 63; 65; 80; 81; 82] code then emoji_rain
  else if includes_value [56; 57; 66; 67] code then emoji_freezing_rain
  else if includes_value [71; 73; 75; 77; 85; 86] code then emoji_snow
  else if includes_value [95; 96; 99] code then emoji_thunderstorm
  else emoji_default.

(** The symbol of the card (line 150):
    [weatherCodeToEmoji(weather.current.weathercode)]. *)
Definition card_symbol (rt : Runtime) (wt : Weather) : Result jsstring :=
  code ← get_prop rt (current wt) (PName (js "weathercode"));
  Ok (weatherCodeToEmoji_value code).

(** A display host for the examples: three digits as JavaScript prints them
    for the coordinates of London and for integers, which is all the examples
    use. *)
Definition example_display : DisplayHost :=
  {| toFixed3 := fun n =>
       match n with
       | NumFinite q =>
           if Qeq_bool q (103 # 2) then js "51.500"
           else if Qeq_bool q (-3 # 25) then js "-0.120"
           else example_number_text n ++ js ".000"
       | _ => example_number_text n
       end;
     notAFunctionMessage := fun _ name => name ++ js " is not a function" |}.

(** Further payloads for the examples: a candidate whose coordinates are
    strings, a geocoding body whose [results] has length 0 without being an
    array, one whose first candidate is [null], and an answer that never came. *)
Definition london_candidate_as_text : JsValue :=
  JObj [ (js "latitude", JStr (js "51.5"));
         (js "longitude", JStr (js "-0.12"));
         (js "name", JStr (js "London"));
         (js "country", JStr (js "United Kingdom")) ].

Definition geocoding_with_text_coordinates : JsValue :=
  JObj [ (js "results", JArr [london_candidate_as_text]) ].

Definition geocoding_with_zero_length : JsValue :=
  JObj [ (js "results", JObj [ (js "length", JNum (NumFinite 0)) ]) ].

Definition geocoding_with_null_candidate : JsValue :=
  JObj [ (js "results", JArr [JNull; london_candidate]) ].

Definition network_down : FetchResult := FetchRejected (Error_ (js "Failed to fetch")).

(** A host whose URI encoding throws on the surrogate code units, as
    [encodeURIComponent] does on a lone one, and is the identity otherwise. *)
Definition strict_encoding_host : Runtime :=
  {| encodeURIComponent := fun s =>
       if existsb (fun c => (0xD800 <=? c) && (c <=? 0xDFFF))%N s
       then Raise (Error_ (js "URI malformed"))
       else Ok s;
     numberToString := example_number_text;
     typeErrorMessage := fun _ => js "TypeError";
     fetch := fun _ _ => network_down |}.

(** ** The state between the events of a run *)

(** What one logged event does to the component state. *)
Definition apply_event (e : Event) (s : AppState) : AppState :=
  match e with
  | EvPreventDefault | EvFetch _ => s
  | EvSetLoading b =>
      {| city := city s; weather := weather s; loading := b; error := error s |}
  | EvSetError e =>
      {| city := city s; weather := weather s; loading := loading s; error := e |}
  | EvSetWeather v =>
      {| city := city s; weather := v; loading := loading s; error := error s |}
  end.

(** The state after a chronological list of events. *)
Definition replay (evs : list Event) (s : AppState) : AppState :=
  fold_left (fun s e => apply_event e s) evs s.

(** The state in which the component waits for an answer: loading, with no
    error and no weather. *)
Definition searching (s : AppState) : bool :=
  loading s
  && match error s with Some _ => false | None => true end
  && match weather s with Some _ => false | None => true end.

(** Whether the component is in that state at each request of [evs], started
    from [s]. *)
Fixpoint searching_at_requests (evs : list Event) (s : AppState) : bool :=
  match evs with
  | [] => true
  | e :: rest =>
      match e with
      | EvFetch _ => searching s
      | _ => true
      end
      && searching_at_requests rest (apply_event e s)
  end.

(** The error with which [await fetch(url)] or, on a success status,
    [await res.json()] rejects, if either does. *)
Definition transport_failure (r : FetchResult) : option JsError :=
  match r with
  | FetchRejected e => Some e
  | FetchResolved res =>
      if ok res then
        match body res with
        | BodyUnreadable e => Some e
        | BodyJson _ => None
        end
      else None
  end.

(** ** Sample runs *)

Example london_search_succeeds :
  ui (after (handleSubmit (example_host (json_ok london_geocoding) (json_ok london_forecast)))
        (initial_world (js "London")))
  = {| city := js "London"; weather := Some london_weather; loading := false; error := None |}.
Proof. vm_compute. reflexivity. Qed.

Example london_search_requests :
  rev (log (after (handleSubmit (example_host (json_ok london_geocoding) (json_ok london_forecast)))
                  (initial_world (js "  London "))))
  = [ EvPreventDefault; EvSetLoading true; EvSetError None; EvSetWeather None;
      EvFetch (js "https://geocoding-api.open-meteo.com/v1/search?name=London&count=1");
      EvFetch (js "https://api.open-meteo.com/v1/forecast?latitude=51.5&longitude=-0.12&current_weather=true&timezone=auto");
      EvSetWeather (Some london_weather); EvSetLoading false ].
Proof. vm_compute. reflexivity. Qed.

(** The end-to-end case of the specification: code 3 is shown with the
    overcast symbol and the text "Overcast". *)
Example london_rendering :
  get_prop (example_host http_failure http_failure) london_current (PName (js "weathercode"))
  = Ok (JNum (NumFinite 3))
  /\ weatherCodeToEmoji 3 = emoji_overcast
  /\ weatherCodeToText 3 = js "Overcast".
Proof. repeat split. Qed.

Example paris_with_admin_region :
  option_map cityName
    (weather (ui (after (handleSubmit
                           (example_host
                              (json_ok (paris_geocoding (Some (JStr (js "Ile-de-France")))))
                              (json_ok london_forecast)))
                    (initial_world (js "Paris")))))
  = Some (js "Paris, Ile-de-France, France").
Proof. vm_compute. reflexivity. Qed.

(** A body that is not an object at all is a different failure: reading a
    property of [null] throws, and the text shown is the engine's. *)
Example null_forecast_body :
  error (ui (after (handleSubmit (example_host (json_ok london_geocoding) (json_ok JNull)))
               (initial_world (js "London"))))
  = Some (js "TypeError").
Proof. vm_compute. reflexivity. Qed.

Example null_geocoding_body :
  error (ui (after (handleSubmit (example_host (json_ok JNull) http_failure))
               (initial_world (js "London"))))
  = Some (js "TypeError").
Proof. vm_compute. reflexivity. Qed.

(** ** The classifier *)

Lemma includes_true (xs : list Z) (code : Z) : includes xs code = true <-> code ∈ xs.
Proof.
  unfold includes. rewrite existsb_exists, list_elem_of_In. split.
  - intros (x & Hin & Heq). apply Z.eqb_eq in Heq. now subst.
  - intros Hin. exists code. split; [assumption | apply Z.eqb_refl].
Qed.

(** The chain of [if]s is first-match evaluation of [emoji_rules]. *)
Lemma weatherCodeToEmoji_first_match (code : Z) :
  first_match emoji_rules code = weatherCodeToEmoji code.
Proof.
  unfold weatherCodeToEmoji, emoji_rules, first_match, includes, existsb.
  now rewrite !orb_false_r.
Qed.

(** A code the symbol classifier recognises has an entry in the description
    table. *)
Lemma emoji_known_text_known (code : Z) :
  weatherCodeToEmoji code <> emoji_default -> is_Some (weatherCodeMap !! code).
Proof.
  unfold weatherCodeToEmoji, includes, existsb.
  repeat match goal with
         | |- context [code =? ?k] =>
             destruct (Z.eqb_spec code k) as [-> | _]; [intros _; vm_compute; eauto | cbn [orb]]
         end.
  congruence.
Qed.

Lemma sets_disjoint_sym (xs ys : list Z) : sets_disjoint xs ys -> sets_disjoint ys xs.
Proof. unfold sets_disjoint. eauto. Qed.

Lemma sets_disjoint_check (xs ys : list Z) :
  forallb (fun x => negb (includes ys x)) xs = true -> sets_disjoint xs ys.
Proof.
  intros Hall c Hx Hy. apply includes_true, list_elem_of_In in Hx.
  rewrite forallb_forall in Hall. specialize (Hall c Hx).
  rewrite Hy in Hall. discriminate.
Qed.

Lemma emoji_rules_disjoint : pairwise_disjoint emoji_rules.
Proof.
  unfold emoji_rules. cbn [pairwise_disjoint].
  repeat split; repeat constructor; apply sets_disjoint_check; reflexivity.
Qed.

Lemma pairwise_disjoint_perm (l1 l2 : list Rule) :
  l1 ≡ₚ l2 -> pairwise_disjoint l1 -> pairwise_disjoint l2.
Proof.
  induction 1 as [ | x l l' Hperm IH | x y l | l l' l'' _ IH1 _ IH2 ]; cbn [pairwise_disjoint].
  - trivial.
  - intros [Hx Hl]. split; [now rewrite <- Hperm | auto].
  - intros [Hy [Hx Hl]]. inversion Hy as [ | ? ? Hyx Hyl ]; subst.
    repeat split; try assumption.
    constructor; [now apply sets_disjoint_sym | assumption].
  - auto.
Qed.

Lemma no_match_in_rest (codes : list Z) (rest : list Rule) (code : Z) :
  Forall (fun r' => sets_disjoint codes r'.1) rest ->
  includes codes code = true ->
  List.filter (fun r => includes r.1 code) rest = [] /\ first_match rest code = emoji_default.
Proof.
  induction 1 as [ | [codes' symbol'] rest' Hd _ IH ]; intros Hin;
    cbn [List.filter first_match fst].
  - auto.
  - destruct (includes codes' code) eqn:Hin'.
    + destruct (Hd code Hin Hin').
    + auto.
Qed.

Lemma disjoint_at_most_one (rules : list Rule) (code : Z) :
  pairwise_disjoint rules -> (matching_rules rules code <= 1)%nat.
Proof.
  unfold matching_rules.
  induction rules as [ | [codes symbol] rest IH ];
    cbn [List.filter pairwise_disjoint fst]; intros Hd.
  - cbn. lia.
  - destruct Hd as [Hhd Htl]. destruct (includes codes code) eqn:Hin.
    + destruct (no_match_in_rest codes rest code Hhd Hin) as [-> _]. cbn. lia.
    + auto.
Qed.

Lemma first_match_perm (l1 l2 : list Rule) (code : Z) :
  l1 ≡ₚ l2 -> pairwise_disjoint l1 -> first_match l1 code = first_match l2 code.
Proof.
  induction 1 as [ | [codes symbol] l l' Hperm IH | [cx sx] [cy sy] l | l l' l'' H1 IH1 _ IH2 ];
    cbn [first_match pairwise_disjoint].
  - trivial.
  - intros [_ Hl]. now rewrite IH.
  - intros [Hy _]. inversion Hy as [ | ? ? Hyx _ ]; subst. cbn in Hyx.
    destruct (includes cx code) eqn:Hx, (includes cy code) eqn:Hy'; try reflexivity.
    destruct (Hyx code Hy' Hx).
  - intros Hd. rewrite IH1 by assumption. apply IH2.
    now apply (pairwise_disjoint_perm l l').
Qed.

(** C3.  For every integer code from 0 to 99 that has no entry in the
    description table, [weatherCodeToText] returns exactly "Unknown" and
    [weatherCodeToEmoji] returns the one default symbol.  Both are total
    functions of the code. *)
Theorem unknown_code_fallback (code : Z) :
  0 <= code <= 99 ->
  weatherCodeMap !! code = None ->
  weatherCodeToText code = js "Unknown" /\ weatherCodeToEmoji code = emoji_default.
Proof.
  intros _ Hnone. split.
  - unfold weatherCodeToText. now rewrite Hnone.
  - destruct (decide (weatherCodeToEmoji code = emoji_default)) as [Heq | Hne]; [assumption | ].
    apply emoji_known_text_known in Hne. rewrite Hnone in Hne. now destruct Hne.
Qed.

Lemma unknown_code_fallback_witness :
  0 <= 4 <= 99 /\ weatherCodeMap !! 4 = None
  /\ weatherCodeToText 4 = js "Unknown" /\ weatherCodeToEmoji 4 = emoji_default.
Proof.
  split; [lia | ]. split; [reflexivity | ].
  apply (unknown_code_fallback 4); [lia | reflexivity].
Defined.

(** C4.  The sets of the symbol classifier's eight rules are pairwise
    disjoint; so in whatever order the rules are evaluated, a code matches at
    most one of them and first-match evaluation returns the symbol that
    [weatherCodeToEmoji] returns. *)
Theorem emoji_rule_order_irrelevant (rules : list Rule) (code : Z) :
  rules ≡ₚ emoji_rules ->
  pairwise_disjoint rules
  /\ (matching_rules rules code <= 1)%nat
  /\ first_match rules code = weatherCodeToEmoji code.
Proof.
  intros Hperm.
  assert (Hd : pairwise_disjoint rules).
  { apply (pairwise_disjoint_perm emoji_rules); [now symmetry | apply emoji_rules_disjoint]. }
  repeat split.
  - exact Hd.
  - now apply disjoint_at_most_one.
  - rewrite <- weatherCodeToEmoji_first_match. now apply first_match_perm.
Qed.

Lemma emoji_rule_order_irrelevant_witness :
  rev emoji_rules ≡ₚ emoji_rules
  /\ pairwise_disjoint (rev emoji_rules)
  /\ (matching_rules (rev emoji_rules) 95 <= 1)%nat
  /\ first_match (rev emoji_rules) 95 = weatherCodeToEmoji 95.
Proof.
  split; [symmetry; apply Permutation_rev | ].
  apply (emoji_rule_order_irrelevant (rev emoji_rules) 95).
  symmetry; apply Permutation_rev.
Defined.

(** Which codes get the clear-sky and the overcast symbol. *)
Lemma emoji_clear_only_0 (code : Z) : weatherCodeToEmoji code = emoji_clear <-> code = 0.
Proof.
  split; [ | intros ->; reflexivity].
  unfold weatherCodeToEmoji, includes, existsb.
  repeat match goal with
         | |- context [code =? ?k] =>
             destruct (Z.eqb_spec code k) as [-> | _]; [ | cbn [orb]]
         end;
    try reflexivity; intros Heq; vm_compute in Heq; discriminate.
Qed.

Lemma emoji_overcast_only_3 (code : Z) : weatherCodeToEmoji code = emoji_overcast <-> code = 3.
Proof.
  split; [ | intros ->; reflexivity].
  unfold weatherCodeToEmoji, includes, existsb.
  repeat match goal with
         | |- context [code =? ?k] =>
             destruct (Z.eqb_spec code k) as [-> | _]; [ | cbn [orb]]
         end;
    try reflexivity; intros Heq; vm_compute in Heq; discriminate.
Qed.

(** C9.  [weatherCodeToText 0] is "Clear sky" and [weatherCodeToText 95] is
    "Thunderstorm"; [weatherCodeToEmoji 0] is the clear-sky symbol, which no
    other code gets; and code 3 is described as "Overcast" and gets the
    overcast symbol, which again no other code gets. *)
Theorem classifier_fixed_points :
  weatherCodeToText 0 = js "Clear sky"
  /\ weatherCodeToText 95 = js "Thunderstorm"
  /\ weatherCodeToEmoji 0 = emoji_clear
  /\ (forall code, weatherCodeToEmoji code = emoji_clear <-> code = 0)
  /\ weatherCodeToText 3 = js "Overcast"
  /\ weatherCodeToEmoji 3 = emoji_overcast
  /\ (forall code, weatherCodeToEmoji code = emoji_overcast <-> code = 3).
Proof.
  split; [reflexivity | ]. split; [reflexivity | ]. split; [reflexivity | ].
  split; [exact emoji_clear_only_0 | ].
  split; [reflexivity | ]. split; [reflexivity | ].
  exact emoji_overcast_only_3.
Qed.

(** ** The orchestrator: running the handlers case by case *)

Lemma trim_start_whitespace (s : jsstring) :
  forallb is_whitespace s = true -> trim_start s = [].
Proof.
  induction s as [ | c s IH ]; cbn [forallb trim_start]; [reflexivity | ].
  intros [Hc Hs]%andb_true_iff. rewrite Hc. auto.
Qed.

Lemma trim_whitespace (s : jsstring) : forallb is_whitespace s = true -> trim s = [].
Proof. intros Hs. unfold trim. now rewrite (trim_start_whitespace s Hs). Qed.

Lemma emitted_prefix (w : World) (u : AppState) (l : list Event) (evs : list Event) :
  emitted w {| ui := u; log := l ++ log w |} evs <-> evs = rev l.
Proof.
  unfold emitted. cbn [log]. split.
  - intros H%app_inv_tail. now rewrite H, rev_involutive.
  - intros ->. now rewrite rev_involutive.
Qed.

(** The part of the log [l] that was added on top of [tl]. *)
Ltac log_prefix l tl :=
  lazymatch l with
  | tl => constr:(@nil Event)
  | ?e :: ?r => let p := log_prefix r tl in constr:(e :: p)
  end.

(** Solve [emitted w {| log := e1 :: ... :: log w |} evs] for [evs]. *)
Ltac emitted_inv :=
  repeat match goal with
    | H : emitted ?w {| ui := ?u; log := ?l |} ?evs |- _ =>
        let p := log_prefix l constr:(log w) in
        change (emitted w {| ui := u; log := p ++ log w |} evs) in H;
        apply emitted_prefix in H; cbn [rev app] in H
    | |- emitted ?w {| ui := ?u; log := ?l |} ?evs =>
        let p := log_prefix l constr:(log w) in
        change (emitted w {| ui := u; log := p ++ log w |} evs);
        apply emitted_prefix; cbn [rev app]
    end.

Ltac unfold_handlers :=
  unfold after, handleSubmit, fetchWeatherForCity, fetchWeather_try, call, call_async,
    try_catch_finally, run_finally, read_city, preventDefault, setError, setWeather, setLoading, emit,
    await_fetch, await_json, lift, throw, return_, mbind, M_bind, mret, M_ret.

Ltac reduce_run :=
  cbn [ui log city weather loading error fst snd requests_issued].

(** Case analysis on an innermost scrutinee of the goal. *)
Ltac split_inner x :=
  lazymatch x with
  | context [match ?y with _ => _ end] => split_inner y
  | _ => destruct x eqn:?
  end.

Ltac run_step :=
  match goal with
  | |- context [match ?x with _ => _ end] => split_inner x
  end;
  reduce_run.

Ltac run_handlers := unfold_handlers; reduce_run; repeat run_step.

(** Two recorded values of the same expression are the same value. *)
Ltac same_value :=
  repeat match goal with
    | H1 : ?t = _, H2 : ?t = _ |- _ =>
        rewrite H1 in H2; first [discriminate H2 | injection H2 as ?; subst | clear H2]
    end.

(** Evaluate the recorded tests and property reads whose operands have
    become known, and close the case if one of them is contradictory. *)
Ltac settle_values :=
  repeat (simplify_eq;
          repeat match goal with
            | H : negb (truthy _) = _ |- _ => progress vm_compute in H
            | H : strict_equal_zero _ = _ |- _ => progress vm_compute in H
            | H : get_prop _ (default _ _) _ = _ |- _ => progress vm_compute in H
            end);
  try discriminate.

Section Orchestrator.

Variable rt : Runtime.

(** C1.  When the query is empty or consists of white space only,
    submitting it sets the error to "Please enter a city name." and does
    nothing else: no request, neither the geocoding nor the forecast one, is
    issued. *)
Theorem blank_query_rejected (w : World) :
  forallb is_whitespace (city (ui w)) = true ->
  let w' := after (handleSubmit rt) w in
  error (ui w') = Some (js "Please enter a city name.")
  /\ emitted w w' [EvPreventDefault; EvSetError (Some (js "Please enter a city name."))]
  /\ requests_issued (log w') = requests_issued (log w).
Proof.
  intros Hblank w'. subst w'.
  unfold_handlers. reduce_run. rewrite (trim_whitespace _ Hblank).
  cbn [str_eqb]. reduce_run.
  split; [reflexivity | ]. split; [ | reflexivity].
  emitted_inv. reflexivity.
Qed.

(** C6.  The geocoding request is the first request of a run and the
    forecast request its second.  When the answer to the geocoding request
    has a non-success status, the run ends with the error "Geocoding request
    failed" and the forecast request is never issued; when the answer to the
    forecast request has a non-success status, the run ends with the error
    "Weather request failed".  Neither run stores a weather. *)
Theorem http_failure_names_stage (w : World) (cityName : jsstring) (evs : list Event) :
  let w' := after (fetchWeatherForCity rt cityName) w in
  emitted w w' evs ->
  (forall url res,
      requests evs !! 0%nat = Some url ->
      fetch rt (requests_issued (log w)) url = FetchResolved res ->
      ok res = false ->
      error (ui w') = Some (js "Geocoding request failed")
      /\ weather (ui w') = None
      /\ requests evs = [url])
  /\ (forall url res,
      requests evs !! 1%nat = Some url ->
      fetch rt (S (requests_issued (log w))) url = FetchResolved res ->
      ok res = false ->
      error (ui w') = Some (js "Weather request failed")
      /\ weather (ui w') = None).
Proof.
  intros w'. subst w'. run_handlers.
  all: intros Hev; emitted_inv; subst evs; cbn [requests].
  all: split; intros ? ? Hurl Hfetch Hok; cbn [lookup list_lookup] in Hurl;
    try discriminate Hurl; injection Hurl as <-.
  all: same_value.
  all: try (rewrite Hok in *; discriminate).
  all: repeat split; reflexivity.
Qed.

(** C5.  When the run gets as far as its second request, the forecast one,
    and the answer is a success whose body is an object without the
    current-conditions payload, the run ends with exactly the error "No
    current weather available" and stores no weather. *)
Theorem missing_payload_reported
    (w : World) (cityName : jsstring) (evs : list Event) (url : jsstring) (forecastJson : JsValue) :
  let w' := after (fetchWeatherForCity rt cityName) w in
  emitted w w' evs ->
  requests evs !! 1%nat = Some url ->
  fetch rt (S (requests_issued (log w))) url = json_ok forecastJson ->
  lacks_current_weather forecastJson ->
  error (ui w') = Some (js "No current weather available") /\ weather (ui w') = None.
Proof.
  intros w' Hev Hurl Hfetch (fields & -> & Hlacks). subst w'.
  revert Hev Hurl Hfetch. run_handlers.
  all: intros Hev; emitted_inv; subst evs; cbn [requests lookup list_lookup].
  all: intros Hurl Hfetch; try discriminate Hurl; injection Hurl as <-.
  all: unfold json_ok in *; same_value; cbn [ok body negb] in *; try discriminate.
  all: simplify_eq.
  all: cbn [get_prop] in *; simplify_eq.
  all: try (split; reflexivity).
  all: destruct Hlacks as [Hl | Hl]; rewrite Hl in *; settle_values.
Qed.

(** C7.  When the answer to the geocoding request is a success whose body
    is an object with the [results] array missing or empty, the run ends with
    the not-found message, which begins "City not found" and is none of the
    hard-error messages; no weather is stored and the forecast request is
    never issued. *)
Theorem no_results_not_found
    (w : World) (cityName : jsstring) (evs : list Event) (url : jsstring) (geoJson : JsValue) :
  let w' := after (fetchWeatherForCity rt cityName) w in
  emitted w w' evs ->
  requests evs !! 0%nat = Some url ->
  fetch rt (requests_issued (log w)) url = json_ok geoJson ->
  results_missing_or_empty geoJson ->
  exists text,
    error (ui w') = Some text
    /\ (js "City not found" `prefix_of` text)
    /\ (text ∉ hard_error_messages)
    /\ weather (ui w') = None
    /\ requests evs = [url].
Proof.
  intros w' Hev Hurl Hfetch (fields & -> & Hres). subst w'.
  exists msg_city_not_found.
  assert (Htext : (js "City not found" `prefix_of` msg_city_not_found)
                  /\ msg_city_not_found ∉ hard_error_messages).
  { split.
    - eexists. vm_compute. reflexivity.
    - unfold hard_error_messages. rewrite !not_elem_of_cons.
      repeat split; try (vm_compute; discriminate). apply not_elem_of_nil. }
  destruct Htext as [Hprefix Hhard].
  revert Hev Hurl Hfetch. run_handlers.
  all: intros Hev; emitted_inv; subst evs; cbn [requests lookup list_lookup].
  all: intros Hurl Hfetch; try discriminate Hurl; injection Hurl as <-.
  all: unfold json_ok in *; same_value; cbn [ok body negb] in *; try discriminate.
  all: simplify_eq.
  all: cbn [get_prop] in *; simplify_eq.
  all: try (repeat split; (assumption || reflexivity)).
  all: destruct Hres as [Hr | Hr]; rewrite Hr in *; settle_values.
Qed.

End Orchestrator.

(** ** The loading flag: a property kept by every statement of the [try] *)

Lemma emitted_trans (w1 w2 w3 : World) (e1 e2 : list Event) :
  emitted w1 w2 e1 -> emitted w2 w3 e2 -> emitted w1 w3 (e1 ++ e2).
Proof.
  unfold emitted. intros H1 H2. rewrite H2, H1, rev_app_distr. now rewrite <- app_assoc.
Qed.

Lemma emitted_snoc (w w2 : World) (u : AppState) (e : Event) (evs : list Event) :
  emitted w w2 evs -> emitted w {| ui := u; log := e :: log w2 |} (evs ++ [e]).
Proof. unfold emitted. cbn [log]. intros ->. now rewrite rev_app_distr. Qed.

Create HintDb quiet.

Lemma quiet_ret {A} (a : A) : quiet (mret a).
Proof. intros w. exists []. repeat split. constructor. Qed.

Lemma quiet_throw {A} (e : JsError) : quiet (@throw A e).
Proof. intros w. exists []. repeat split. constructor. Qed.

Lemma quiet_return {A} : quiet (@return_ A).
Proof. intros w. exists []. repeat split. constructor. Qed.

Lemma quiet_lift {A} (r : Result A) : quiet (lift r).
Proof. intros w. exists []. unfold lift. destruct r; repeat split; constructor. Qed.

Lemma quiet_setError (e : option jsstring) : quiet (setError e).
Proof. intros w. exists [EvSetError e]. repeat split. repeat constructor. Qed.

Lemma quiet_setWeather (v : option Weather) : quiet (setWeather v).
Proof. intros w. exists [EvSetWeather v]. repeat split. repeat constructor. Qed.

Lemma quiet_await_fetch (rt : Runtime) (url : jsstring) : quiet (await_fetch rt url).
Proof.
  intros w. exists [EvFetch url]. unfold await_fetch.
  destruct (fetch rt _ url); repeat split; repeat constructor.
Qed.

Lemma quiet_await_json (res : Response) : quiet (await_json res).
Proof. apply quiet_lift. Qed.

Lemma quiet_if {A} (b : bool) (m1 m2 : M A) :
  quiet m1 -> quiet m2 -> quiet (if b then m1 else m2).
Proof. now destruct b. Qed.

Lemma quiet_bind {A B} (m : M A) (k : A -> M B) :
  quiet m -> (forall a, quiet (k a)) -> quiet (m ≫= k).
Proof.
  intros Hm Hk w. unfold mbind, M_bind.
  destruct (Hm w) as (mid1 & Hem1 & Hq1 & Hl1).
  destruct (m w) as [[a | | e] w1]; cbn [snd] in *; [ | exists mid1; auto ..].
  destruct (Hk a w1) as (mid2 & Hem2 & Hq2 & Hl2).
  exists (mid1 ++ mid2). split; [now apply (emitted_trans w w1) | ].
  split; [now apply Forall_app | congruence].
Qed.

#[export] Hint Resolve quiet_ret quiet_throw quiet_return quiet_lift quiet_setError
  quiet_setWeather quiet_await_fetch quiet_await_json quiet_if : quiet.

Lemma fetchWeather_try_quiet (rt : Runtime) (cityName : jsstring) :
  quiet (fetchWeather_try rt cityName).
Proof.
  unfold fetchWeather_try.
  repeat first [ apply quiet_bind; [ | intros ? ] | apply quiet_if | solve [auto with quiet] ].
Qed.

Section Loading.

Variable rt : Runtime.

Lemma fetchWeatherForCity_shape (w : World) (cityName : jsstring) :
  let r := fetchWeatherForCity rt cityName w in
  r.1 = Normal ()
  /\ loading (ui r.2) = false
  /\ exists mid,
       emitted w r.2 ([EvSetLoading true] ++ mid ++ [EvSetLoading false])
       /\ Forall (fun e => is_set_loading e = false) mid.
Proof.
  unfold fetchWeatherForCity, call, try_catch_finally, run_finally, mbind, M_bind,
    setLoading, setError, setWeather, emit.
  cbn [ui log city weather loading error fst snd].
  set (w1 := {| ui := _; log := EvSetWeather None :: EvSetError None :: EvSetLoading true :: log w |}).
  assert (Hpre : emitted w w1 [EvSetLoading true; EvSetError None; EvSetWeather None])
    by reflexivity.
  destruct (fetchWeather_try_quiet rt cityName w1) as (mid & Hem & Hq & _).
  destruct (fetchWeather_try rt cityName w1) as [c1 w2]. cbn [snd] in Hem.
  pose proof (emitted_trans w w1 w2 _ _ Hpre Hem) as Hrun.
  destruct c1 as [ [] | | e ]; cbn [ui log loading fst snd].
  1, 2: split; [reflexivity | ]; split; [reflexivity | ];
    exists ([EvSetError None; EvSetWeather None] ++ mid); split;
    [ | repeat constructor; assumption ].
  3: split; [reflexivity | ]; split; [reflexivity | ];
    exists ([EvSetError None; EvSetWeather None] ++ mid
              ++ [EvSetError (Some (or_else (message e) msg_something_wrong))]); split;
    [ | repeat constructor; apply Forall_app; split; [assumption | repeat constructor] ].
  1, 2: exact (emitted_snoc w w2 _ _ _ Hrun).
  exact (emitted_snoc w {| ui := ui w2; log := _ :: log w2 |} _ _ _
           (emitted_snoc w w2 (ui w2) _ _ Hrun)).
Qed.

(** C10.  Every run of [fetchWeatherForCity] first sets the loading flag,
    does not touch it again until its last action, which clears it, and
    this on every path: the run always ends normally with the flag cleared.
    A submission rejected for a blank query leaves the flag as it was, and
    any other submission leaves it cleared. *)
Theorem loading_brackets_search (w : World) (cityName : jsstring) :
  let r := fetchWeatherForCity rt cityName w in
  r.1 = Normal ()
  /\ loading (ui r.2) = false
  /\ (exists mid,
        emitted w r.2 ([EvSetLoading true] ++ mid ++ [EvSetLoading false])
        /\ Forall (fun e => is_set_loading e = false) mid)
  /\ loading (ui (after (handleSubmit rt) w))
     = (if str_eqb (trim (city (ui w))) [] then loading (ui w) else false).
Proof.
  destruct (fetchWeatherForCity_shape w cityName) as (Hnormal & Hloading & Hlog).
  repeat split; try assumption.
  unfold after, handleSubmit, call, call_async, read_city, preventDefault, setError, emit,
    return_, mbind, M_bind, mret, M_ret.
  cbn [ui log city weather loading error fst snd].
  destruct (str_eqb (trim (city (ui w))) []); cbn [ui loading fst snd]; [reflexivity | ].
  apply fetchWeatherForCity_shape.
Qed.

End Loading.

(** ** The outcome of a search does not depend on the outcome before it *)

Create HintDb blind.

Lemma blind_ret {A} (a : A) : history_blind (mret a).
Proof. intros w1 w2 H. now split. Qed.

Lemma blind_throw {A} (e : JsError) : history_blind (@throw A e).
Proof. intros w1 w2 H. now split. Qed.

Lemma blind_return {A} : history_blind (@return_ A).
Proof. intros w1 w2 H. now split. Qed.

Lemma blind_lift {A} (r : Result A) : history_blind (lift r).
Proof. intros w1 w2 H. unfold lift. destruct r; now split. Qed.

Lemma blind_setError (e : option jsstring) : history_blind (setError e).
Proof. intros w1 w2 (Hn & Hw & He). repeat split; assumption. Qed.

Lemma blind_setWeather (v : option Weather) : history_blind (setWeather v).
Proof. intros w1 w2 (Hn & Hw & He). repeat split; assumption. Qed.

Lemma blind_setLoading (b : bool) : history_blind (setLoading b).
Proof. intros w1 w2 (Hn & Hw & He). repeat split; assumption. Qed.

Lemma blind_await_fetch (rt : Runtime) (url : jsstring) : history_blind (await_fetch rt url).
Proof.
  intros w1 w2 (Hn & Hw & He). unfold await_fetch. rewrite Hn.
  destruct (fetch rt _ url); repeat split; cbn; congruence.
Qed.

Lemma blind_await_json (res : Response) : history_blind (await_json res).
Proof. apply blind_lift. Qed.

Lemma blind_if {A} (b : bool) (m1 m2 : M A) :
  history_blind m1 -> history_blind m2 -> history_blind (if b then m1 else m2).
Proof. now destruct b. Qed.

Lemma blind_bind {A B} (m : M A) (k : A -> M B) :
  history_blind m -> (forall a, history_blind (k a)) -> history_blind (m ≫= k).
Proof.
  intros Hm Hk w1 w2 H. unfold mbind, M_bind.
  destruct (Hm w1 w2 H) as [Hc Hs].
  destruct (m w1) as [c1 w1'], (m w2) as [c2 w2']; cbn [fst snd] in *; subst c2.
  destruct c1 as [a | | e]; [now apply Hk | now split ..].
Qed.

Lemma blind_finally {A} (fin : M ()) (r1 r2 : Completion A * World) :
  history_blind fin -> r1.1 = r2.1 -> same_outcome r1.2 r2.2 ->
  (run_finally fin r1).1 = (run_finally fin r2).1
  /\ same_outcome (run_finally fin r1).2 (run_finally fin r2).2.
Proof.
  intros Hf Hc Hs. destruct r1 as [c w1], r2 as [c' w2]. cbn [fst snd] in Hc, Hs. subst c'.
  unfold run_finally. destruct (Hf w1 w2 Hs) as [Hfc Hfs].
  destruct (fin w1) as [c1 w1'], (fin w2) as [c2 w2']; cbn [fst snd] in *; subst c2.
  destruct c1; now split.
Qed.

Lemma blind_try {A} (body : M A) (handler : JsError -> M A) (fin : M ()) :
  history_blind body -> (forall e, history_blind (handler e)) -> history_blind fin ->
  history_blind (try_catch_finally body handler fin).
Proof.
  intros Hb Hh Hf w1 w2 H. unfold try_catch_finally.
  destruct (Hb w1 w2 H) as [Hc Hs].
  destruct (body w1) as [c1 w1'], (body w2) as [c2 w2']; cbn [fst snd] in *; subst c2.
  destruct c1 as [a | | e]; apply blind_finally; try assumption; try reflexivity.
  all: now apply Hh.
Qed.

Lemma blind_call (m : M ()) : history_blind m -> history_blind (call m).
Proof.
  intros Hm w1 w2 H. unfold call. destruct (Hm w1 w2 H) as [Hc Hs].
  destruct (m w1) as [c1 w1'], (m w2) as [c2 w2']; cbn [fst snd] in *; subst c2.
  destruct c1; now split.
Qed.

#[export] Hint Resolve blind_ret blind_throw blind_return blind_lift blind_setError
  blind_setWeather blind_setLoading blind_await_fetch blind_await_json blind_if : blind.

Lemma fetchWeather_try_blind (rt : Runtime) (cityName : jsstring) :
  history_blind (fetchWeather_try rt cityName).
Proof.
  unfold fetchWeather_try.
  repeat first [ apply blind_bind; [ | intros ? ] | apply blind_if | solve [auto with blind] ].
Qed.

Section Outcome.

Variable rt : Runtime.

Lemma outcome_replaced (w1 w2 : World) (cityName : jsstring) :
  requests_issued (log w1) = requests_issued (log w2) ->
  same_outcome (after (fetchWeatherForCity rt cityName) w1)
               (after (fetchWeatherForCity rt cityName) w2).
Proof.
  intros Hn. unfold after, fetchWeatherForCity.
  assert (Hrest : history_blind
            (call (try_catch_finally (fetchWeather_try rt cityName)
                     (fun err => setError (Some (or_else (message err) msg_something_wrong)))
                     (setLoading false)))).
  { apply blind_call, blind_try; auto using fetchWeather_try_blind with blind. }
  unfold call in *. unfold mbind, M_bind, setLoading at 1 3, setError at 1 3, setWeather, emit.
  cbn [ui log city weather loading error fst snd].
  match goal with
  | |- same_outcome (match ?m ?a with _ => _ end).2 (match ?m ?b with _ => _ end).2 =>
      apply (Hrest a b)
  end.
  repeat split; assumption.
Qed.

(** What the rejection of a blank query leaves alone. *)
Lemma blank_query_keeps_weather (w : World) :
  forallb is_whitespace (city (ui w)) = true ->
  weather (ui (after (handleSubmit rt) w)) = weather (ui w).
Proof.
  intros Hblank. unfold_handlers. reduce_run. rewrite (trim_whitespace _ Hblank).
  reflexivity.
Qed.

(** C8, as amended.  A run of [fetchWeatherForCity] ends in one of two
    ways: with an error and no weather, or with a weather and no error; so
    whenever it fails (no result, a transport error at either stage, a
    missing payload) nothing is stored, whatever was stored before and
    whatever the geocoding stage had resolved.  The outcome it leaves is the
    same from any two states at the same point of the network's sequence of
    answers: the prior outcome does not enter into it.  The rejection of a
    blank query is not such a run: it sets the error and leaves the stored
    weather as it was. *)
Theorem failure_stores_nothing (w : World) (cityName : jsstring) :
  let s := ui (after (fetchWeatherForCity rt cityName) w) in
  ((weather s = None /\ is_Some (error s)) \/ (is_Some (weather s) /\ error s = None))
  /\ (forall w0,
        requests_issued (log w0) = requests_issued (log w) ->
        weather (ui (after (fetchWeatherForCity rt cityName) w0)) = weather s
        /\ error (ui (after (fetchWeatherForCity rt cityName) w0)) = error s)
  /\ (forallb is_whitespace (city (ui w)) = true ->
      weather (ui (after (handleSubmit rt) w)) = weather (ui w)).
Proof.
  intros s. subst s. split; [ | split ].
  - run_handlers; (left; split; [reflexivity | eexists; reflexivity])
                  || (right; split; [eexists; reflexivity | reflexivity]).
  - intros w0 Hn. destruct (outcome_replaced w0 w cityName Hn) as (_ & Hw & He).
    now split.
  - apply blank_query_keeps_weather.
Qed.

Lemma admin1_value_read (admin1 : option jsstring) :
  default JUndefined (option_map JStr admin1) = admin1_value admin1.
Proof. now destruct admin1. Qed.

Lemma cityName_template_strings (name country : jsstring) (admin1 : option jsstring) :
  cityName_template rt (JStr name) (admin1_value admin1) (JStr country)
  = Ok (display_string_spec name (nonempty admin1) country).
Proof. destruct admin1 as [ [ | c a ] | ]; reflexivity. Qed.

(** The success path: with a usable first candidate and a forecast body that
    carries a payload, the run stores the display string of the candidate, its
    coordinates and the payload as received, and no error. *)
Lemma success_stores_weather
    (w : World) (query encoded : jsstring) (gfields tfields : list (jsstring * JsValue))
    (others : list JsValue) (name country : jsstring) (admin1 : option jsstring)
    (lat lon : JsValue) (slat slon : jsstring) (forecastJson payload : JsValue) :
  encodeURIComponent rt query = Ok encoded ->
  fetch rt (requests_issued (log w)) (geoUrl encoded) = json_ok (JObj gfields) ->
  obj_lookup (js "results") gfields = Some (JArr (JObj tfields :: others)) ->
  obj_lookup (js "latitude") tfields = Some lat ->
  obj_lookup (js "longitude") tfields = Some lon ->
  obj_lookup (js "name") tfields = Some (JStr name) ->
  obj_lookup (js "country") tfields = Some (JStr country) ->
  obj_lookup (js "admin1") tfields = option_map JStr admin1 ->
  to_string rt lat = Ok slat ->
  to_string rt lon = Ok slon ->
  fetch rt (S (requests_issued (log w))) (forecastUrl slat slon) = json_ok forecastJson ->
  get_prop rt forecastJson (PName (js "current_weather")) = Ok payload ->
  truthy payload = true ->
  ui (after (fetchWeatherForCity rt query) w)
  = {| city := city (ui w);
       weather := Some {| cityName := display_string_spec name (nonempty admin1) country;
                          latitude := lat; longitude := lon; current := payload |};
       loading := false;
       error := None |}.
Proof.
  intros Henc Hgeo Hres Hlat Hlon Hname Hcountry Hadmin Hslat Hslon Hfc Hpayload Htruthy.
  unfold json_ok in *. run_handlers.
  all: repeat (simplify_eq; same_value;
          cbn [ok body negb get_prop default lookup list_lookup require_object_coercible truthy]
            in *;
          rewrite ?Hres, ?Hlat, ?Hlon, ?Hname, ?Hcountry, ?Hadmin in *;
          change (str_eqb (js "length") (js "length")) with true in *; cbn iota in * ).
  all: try discriminate.
  all: try match goal with
         | H : negb (truthy ?v) = true, Ht : truthy ?v = true |- _ =>
             rewrite Ht in H; discriminate H
         end.
  all: match goal with
       | H : cityName_template _ _ _ _ = _ |- _ =>
           rewrite admin1_value_read, cityName_template_strings in H; now simplify_eq
       end.
Qed.

(** C2, as amended.  For a candidate whose [name] and [country] are
    strings, the display string is ["<name>, <admin1>, <country>"] when
    [admin1] is a non-empty string and ["<name>, <country>"], without the
    segment and its comma, when [admin1] is absent or empty.  So Paris,
    Ile-de-France, France gives "Paris, Ile-de-France, France", and Paris,
    France without admin region gives "Paris, France". *)
Theorem display_string_composed (name country : jsstring) (admin1 : option jsstring) :
  cityName_template rt (JStr name) (admin1_value admin1) (JStr country)
  = Ok (display_string_spec name (nonempty admin1) country)
  /\ cityName_template rt (JStr (js "Paris")) (admin1_value (Some (js "Ile-de-France")))
       (JStr (js "France"))
     = Ok (js "Paris, Ile-de-France, France")
  /\ cityName_template rt (JStr (js "Paris")) (admin1_value None) (JStr (js "France"))
     = Ok (js "Paris, France").
Proof.
  split; [apply cityName_template_strings | split; reflexivity].
Qed.

End Outcome.

(** ** The theorems at concrete inputs *)

Lemma blank_query_rejected_witness :
  forallb is_whitespace (city (ui (initial_world (js "   ")))) = true
  /\ error (ui (after (handleSubmit (example_host http_failure http_failure))
                  (initial_world (js "   "))))
     = Some (js "Please enter a city name.").
Proof.
  split; [reflexivity | ].
  apply (blank_query_rejected (example_host http_failure http_failure)
           (initial_world (js "   "))).
  reflexivity.
Defined.

Lemma http_failure_names_stage_witness :
  error (ui (after (fetchWeatherForCity (example_host http_failure http_failure) (js "London"))
               (initial_world (js "London"))))
  = Some (js "Geocoding request failed")
  /\ error (ui (after (fetchWeatherForCity
                         (example_host (json_ok london_geocoding) http_failure) (js "London"))
                  (initial_world (js "London"))))
     = Some (js "Weather request failed").
Proof.
  split.
  - pose (rt := example_host http_failure http_failure).
    pose (w := initial_world (js "London")).
    pose (evs := rev (log (after (fetchWeatherForCity rt (js "London")) w))).
    assert (Hev : emitted w (after (fetchWeatherForCity rt (js "London")) w) evs)
      by (vm_compute; reflexivity).
    apply (proj1 (http_failure_names_stage rt w (js "London") evs Hev)
             (geoUrl (js "London")) {| ok := false; body := BodyJson (JObj []) |});
      reflexivity.
  - pose (rt := example_host (json_ok london_geocoding) http_failure).
    pose (w := initial_world (js "London")).
    pose (evs := rev (log (after (fetchWeatherForCity rt (js "London")) w))).
    assert (Hev : emitted w (after (fetchWeatherForCity rt (js "London")) w) evs)
      by (vm_compute; reflexivity).
    apply (proj2 (http_failure_names_stage rt w (js "London") evs Hev)
             (forecastUrl (js "51.5") (js "-0.12"))
             {| ok := false; body := BodyJson (JObj []) |});
      reflexivity.
Defined.

Lemma missing_payload_reported_witness :
  lacks_current_weather (JObj [ (js "latitude", JNum (NumFinite (103 # 2))) ])
  /\ error (ui (after (fetchWeatherForCity
                         (example_host (json_ok london_geocoding)
                            (json_ok (JObj [ (js "latitude", JNum (NumFinite (103 # 2))) ])))
                         (js "London"))
                  (initial_world (js "London"))))
     = Some (js "No current weather available").
Proof.
  assert (Hlacks : lacks_current_weather (JObj [ (js "latitude", JNum (NumFinite (103 # 2))) ])).
  { eexists. split; [reflexivity | left; reflexivity]. }
  split; [exact Hlacks | ].
  pose (body := JObj [ (js "latitude", JNum (NumFinite (103 # 2))) ]).
  pose (rt := example_host (json_ok london_geocoding) (json_ok body)).
  pose (w := initial_world (js "London")).
  pose (evs := rev (log (after (fetchWeatherForCity rt (js "London")) w))).
  apply (missing_payload_reported rt w (js "London") evs
           (forecastUrl (js "51.5") (js "-0.12")) body);
    [vm_compute; reflexivity | reflexivity | reflexivity | exact Hlacks].
Defined.

Lemma no_results_not_found_witness :
  results_missing_or_empty (JObj [ (js "generationtime_ms", JNum (NumFinite (1 # 2))) ])
  /\ exists text,
       error (ui (after (fetchWeatherForCity
                           (example_host
                              (json_ok (JObj [ (js "generationtime_ms",
                                                JNum (NumFinite (1 # 2))) ]))
                              http_failure)
                           (js "Nonexistentplacexyz"))
                    (initial_world (js "Nonexistentplacexyz"))))
       = Some text
       /\ (js "City not found" `prefix_of` text).
Proof.
  pose (body := JObj [ (js "generationtime_ms", JNum (NumFinite (1 # 2))) ]).
  assert (Hres : results_missing_or_empty body).
  { eexists. split; [reflexivity | left; reflexivity]. }
  split; [exact Hres | ].
  pose (rt := example_host (json_ok body) http_failure).
  pose (w := initial_world (js "Nonexistentplacexyz")).
  pose (evs := rev (log (after (fetchWeatherForCity rt (js "Nonexistentplacexyz")) w))).
  destruct (no_results_not_found rt w (js "Nonexistentplacexyz") evs
              (geoUrl (js "Nonexistentplacexyz")) body)
    as (text & Herr & Hprefix & _);
    [vm_compute; reflexivity | reflexivity | reflexivity | exact Hres | ].
  exists text. split; assumption.
Defined.

Lemma failure_stores_nothing_witness :
  requests_issued (log (world_showing_london (js "Paris")))
  = requests_issued (log (initial_world (js "Paris")))
  /\ weather (ui (after (fetchWeatherForCity
                           (example_host (json_ok (paris_geocoding None)) http_failure)
                           (js "Paris"))
                    (world_showing_london (js "Paris"))))
     = weather (ui (after (fetchWeatherForCity
                             (example_host (json_ok (paris_geocoding None)) http_failure)
                             (js "Paris"))
                      (initial_world (js "Paris"))))
  /\ forallb is_whitespace (city (ui (world_showing_london (js "   ")))) = true
  /\ weather (ui (after (handleSubmit (example_host http_failure http_failure))
                    (world_showing_london (js "   "))))
     = Some london_weather.
Proof.
  split; [reflexivity | ]. split; [ | split; [reflexivity | ] ].
  - apply (proj1 (proj2 (failure_stores_nothing
                           (example_host (json_ok (paris_geocoding None)) http_failure)
                           (initial_world (js "Paris")) (js "Paris")))
             (world_showing_london (js "Paris")) eq_refl).
  - apply (proj2 (proj2 (failure_stores_nothing
                           (example_host http_failure http_failure)
                           (world_showing_london (js "   ")) (js "Paris")))
             eq_refl).
Defined.

(** ** Where the code departs from the specification's wording *)

(** C2, as the specification words it, fails for a candidate whose [admin1]
    is the empty string: the field is present, yet the code drops the segment
    and gives "Paris, France", not "Paris, , France". *)
Lemma empty_admin1_dropped :
  cityName_template (example_host http_failure http_failure)
    (JStr (js "Paris")) (admin1_value (Some [])) (JStr (js "France"))
  <> Ok (display_string_spec (js "Paris") (Some []) (js "France"))
  /\ display_string_spec (js "Paris") (Some []) (js "France") = js "Paris, , France"
  /\ option_map cityName
       (weather (ui (after (handleSubmit
                              (example_host (json_ok (paris_geocoding (Some (JStr []))))
                                 (json_ok london_forecast)))
                       (initial_world (js "Paris")))))
     = Some (js "Paris, France").
Proof.
  split; [ | split; vm_compute; reflexivity ].
  vm_compute. discriminate.
Qed.

(** C8, as the specification words it, fails on the validation path: a blank
    query submitted while a weather is shown sets the error and leaves that
    weather in place. *)
Lemma blank_submit_keeps_stale_weather :
  error (ui (after (handleSubmit (example_host http_failure http_failure))
               (world_showing_london (js "   "))))
  = Some (js "Please enter a city name.")
  /\ weather (ui (after (handleSubmit (example_host http_failure http_failure))
                    (world_showing_london (js "   "))))
     = Some london_weather
  /\ weather (ui (after (handleSubmit (example_host http_failure http_failure))
                    (world_showing_london (js "   "))))
     <> None.
Proof.
  split; [vm_compute; reflexivity | ]. split; [vm_compute; reflexivity | ].
  vm_compute. discriminate.
Qed.

(** ** Further properties of the orchestrator *)

Lemma or_else_nonempty (a b : jsstring) : b <> [] -> or_else a b <> [].
Proof. unfold or_else. intros Hb. destruct a; cbn; [assumption | discriminate]. Qed.

Section Further.

Variable rt : Runtime.

(** X3.  A run issues no request when the query cannot be encoded, and otherwise
    the geocoding request for the encoded query, followed by at most one
    further request, which is a forecast request.  This does not depend on
    the state the run starts from: nothing is cached. *)
Theorem requests_of_a_run (w : World) (query : jsstring) :
  exists evs,
    emitted w (after (fetchWeatherForCity rt query) w) evs
    /\ match encodeURIComponent rt query with
       | Raise _ => requests evs = []
       | Ok encoded =>
           requests evs = [geoUrl encoded]
           \/ exists lat lon, requests evs = [geoUrl encoded; forecastUrl lat lon]
       end.
Proof.
  run_handlers.
  all: eexists; split; [emitted_inv; reflexivity | cbn [requests]; eauto].
Qed.

(** X17.  A query that cannot be URI-encoded (one with a lone surrogate)
    fails before any request: the run ends with the message of the error
    thrown by [encodeURIComponent], or "Something went wrong" if that message
    is empty, with no weather stored and nothing sent. *)
Theorem unencodable_query_is_reported (w : World) (query : jsstring) (err : JsError) :
  encodeURIComponent rt query = Raise err ->
  after (fetchWeatherForCity rt query) w
  = {| ui := {| city := city (ui w); weather := None; loading := false;
                error := Some (or_else (message err) (js "Something went wrong")) |};
       log := EvSetLoading false
              :: EvSetError (Some (or_else (message err) (js "Something went wrong")))
              :: EvSetWeather None :: EvSetError None :: EvSetLoading true :: log w |}.
Proof.
  intros Henc. unfold_handlers. reduce_run. rewrite Henc. reflexivity.
Qed.

(** X4.  Whatever makes [fetch] or [json] reject at either stage is reported by
    its message, or as "Something went wrong" when the message is empty; no
    weather is stored, and after a failure of the geocoding stage no forecast
    request is issued. *)
Theorem rejection_is_reported
    (w : World) (query : jsstring) (evs : list Event) (stage : nat) (url : jsstring)
    (err : JsError) :
  let w' := after (fetchWeatherForCity rt query) w in
  emitted w w' evs ->
  requests evs !! stage = Some url ->
  transport_failure (fetch rt (stage + requests_issued (log w)) url) = Some err ->
  error (ui w') = Some (or_else (message err) (js "Something went wrong"))
  /\ weather (ui w') = None
  /\ requests evs = take (S stage) (requests evs).
Proof.
  intros w'. subst w'. run_handlers.
  all: intros Hev; emitted_inv; subst evs; cbn [requests].
  all: intros Hurl Hfail; destruct stage as [ | [ | stage ] ];
    cbn [lookup list_lookup Nat.add] in Hurl, Hfail;
    try discriminate Hurl; injection Hurl as <-.
  all: unfold transport_failure in Hfail.
  all: repeat match goal with
         | H : fetch _ _ _ = _ |- _ => rewrite H in Hfail; clear H
         end.
  all: repeat match goal with
         | H : negb (ok ?r) = _ |- _ =>
             destruct (ok r); cbn [negb] in H; try discriminate H; clear H
         end.
  all: repeat match goal with
         | H : body _ = _ |- _ => rewrite H in Hfail; clear H
         end.
  all: try discriminate Hfail.
  all: injection Hfail as ->; repeat split; reflexivity.
Qed.

End Further.

(** Evaluate what the recorded equations determine once the body of an
    answer is known. *)
Ltac eval_known :=
  repeat (simplify_eq; same_value;
          cbn [ok body negb get_prop default lookup list_lookup require_object_coercible
                 truthy] in *;
          repeat match goal with
            | H : obj_lookup _ _ = _ |- _ => progress rewrite H in *
            end;
          change (str_eqb (js "length") (js "length")) with true in *; cbn iota in * ).

Section Malformed.

Variable rt : Runtime.

(** X5.  A body that is the JSON value [null] is not treated as "no results" or
    "no payload": reading [results], or [current_weather], of [null] throws,
    and the run ends with the engine's text for that error (or "Something went
    wrong" if that text is empty), with no weather stored; a [null] geocoding
    body also ends the run before the forecast request. *)
Theorem null_body_is_a_type_error (w : World) (query : jsstring) (evs : list Event) :
  let w' := after (fetchWeatherForCity rt query) w in
  emitted w w' evs ->
  (forall url,
      requests evs !! 0%nat = Some url ->
      fetch rt (requests_issued (log w)) url = json_ok JNull ->
      error (ui w')
      = Some (or_else (typeErrorMessage rt (ReadOfNullish JNull (PName (js "results"))))
                (js "Something went wrong"))
      /\ weather (ui w') = None
      /\ requests evs = [url])
  /\ (forall url,
      requests evs !! 1%nat = Some url ->
      fetch rt (S (requests_issued (log w))) url = json_ok JNull ->
      error (ui w')
      = Some (or_else (typeErrorMessage rt (ReadOfNullish JNull (PName (js "current_weather"))))
                (js "Something went wrong"))
      /\ weather (ui w') = None).
Proof.
  intros w'. subst w'. run_handlers.
  all: intros Hev; emitted_inv; subst evs; cbn [requests].
  all: split; intros ? Hurl Hfetch; cbn [lookup list_lookup] in Hurl;
    try discriminate Hurl; injection Hurl as <-.
  all: unfold json_ok in *; same_value; cbn [ok body negb] in *; try discriminate.
  all: simplify_eq.
  all: cbn [get_prop] in *; simplify_eq.
  all: repeat split; reflexivity.
Qed.

(** X6.  Only the first candidate is looked at, and it is not checked before it is
    taken apart: when [results] is a non-empty array whose first element is
    [null], the run ends with the engine's text for destructuring [null] (or
    "Something went wrong" if that text is empty), stores no weather and issues
    no forecast request, whatever the other candidates are. *)
Theorem null_candidate_is_a_type_error
    (w : World) (query : jsstring) (evs : list Event) (url : jsstring)
    (fields : list (jsstring * JsValue)) (others : list JsValue) :
  let w' := after (fetchWeatherForCity rt query) w in
  emitted w w' evs ->
  requests evs !! 0%nat = Some url ->
  fetch rt (requests_issued (log w)) url = json_ok (JObj fields) ->
  obj_lookup (js "results") fields = Some (JArr (JNull :: others)) ->
  error (ui w')
  = Some (or_else (typeErrorMessage rt (DestructureNullish JNull)) (js "Something went wrong"))
  /\ weather (ui w') = None
  /\ requests evs = [url].
Proof.
  intros w' Hev Hurl Hfetch Hres. subst w'. revert Hev Hurl Hfetch.
  run_handlers.
  all: intros Hev; emitted_inv; subst evs; cbn [requests lookup list_lookup].
  all: intros Hurl Hfetch; try discriminate Hurl; injection Hurl as <-.
  all: unfold json_ok in *; same_value; cbn [ok body negb] in *; try discriminate.
  all: simplify_eq.
  all: eval_known.
  all: try match goal with
         | H : strict_equal_zero (JNum (number_of_nat _)) = true |- _ =>
             vm_compute in H; discriminate H
         end.
  all: repeat split; reflexivity.
Qed.

(** X7.  The two presence tests are truthiness tests.  Any falsy [results] (null,
    false, 0, the empty string) and any [results] whose [length] is 0 gives
    the not-found message without a forecast request; any falsy
    [current_weather] (null, false, 0, the empty string) gives "No current
    weather available".  No weather is stored in either case. *)
Theorem falsy_counts_as_missing (w : World) (query : jsstring) (evs : list Event) :
  let w' := after (fetchWeatherForCity rt query) w in
  emitted w w' evs ->
  (forall url geoJson results,
      requests evs !! 0%nat = Some url ->
      fetch rt (requests_issued (log w)) url = json_ok geoJson ->
      get_prop rt geoJson (PName (js "results")) = Ok results ->
      (truthy results = false
       \/ exists len, get_prop rt results (PName (js "length")) = Ok len
                      /\ strict_equal_zero len = true) ->
      error (ui w')
      = Some (js "City not found. Try another name (e.g., 'Delhi', 'San Francisco').")
      /\ weather (ui w') = None
      /\ requests evs = [url])
  /\ (forall url forecastJson payload,
      requests evs !! 1%nat = Some url ->
      fetch rt (S (requests_issued (log w))) url = json_ok forecastJson ->
      get_prop rt forecastJson (PName (js "current_weather")) = Ok payload ->
      truthy payload = false ->
      error (ui w') = Some (js "No current weather available")
      /\ weather (ui w') = None).
Proof.
  intros w'. subst w'. run_handlers.
  all: intros Hev; emitted_inv; subst evs; cbn [requests].
  all: split; [intros ? ? ? Hurl Hfetch Hget Hfalsy | intros ? ? ? Hurl Hfetch Hget Hfalsy];
    cbn [lookup list_lookup] in Hurl; try discriminate Hurl; injection Hurl as <-.
  all: unfold json_ok in *; same_value; cbn [ok body negb] in *; try discriminate.
  all: simplify_eq; same_value.
  all: try (repeat split; reflexivity).
  all: try (rewrite Hfalsy in *; discriminate).
  all: destruct Hfalsy as [Hfalsy | (len & Hlen & Hzero)];
    [rewrite Hfalsy in *; discriminate | same_value; congruence].
Qed.

End Malformed.

(** ** What a stored weather comes from, and what is on screen *)

Lemma searching_at_requests_sound (evs before rest : list Event) (url : jsstring) (s : AppState) :
  searching_at_requests evs s = true ->
  evs = before ++ EvFetch url :: rest ->
  searching (replay before s) = true.
Proof.
  revert evs s. induction before as [ | e before IH ]; intros evs s Hall ->.
  - cbn in Hall. now apply andb_true_iff in Hall as [Hs _].
  - cbn [app searching_at_requests] in Hall. apply andb_true_iff in Hall as [_ Hall].
    now apply (IH _ _ Hall).
Qed.

Lemma replay_keeps_city (evs : list Event) (s : AppState) : city (replay evs s) = city s.
Proof.
  revert s. induction evs as [ | e evs IH ]; intros s; [reflexivity | ].
  cbn [replay fold_left]. fold (replay evs (apply_event e s)). rewrite IH. now destruct e.
Qed.

Section Screen.

Variable rt : Runtime.

(** X2.  A weather is stored only at the end of a run that made both requests and
    got a truthy payload; the payload stored is the [current_weather] of the
    forecast body as it was received, the forecast request carried the text of
    the very coordinates that are stored, the map link is built from that same
    text, and no error is left. *)
Theorem stored_weather_provenance
    (w : World) (query : jsstring) (evs : list Event) (wt : Weather) :
  let w' := after (fetchWeatherForCity rt query) w in
  emitted w w' evs ->
  weather (ui w') = Some wt ->
  error (ui w') = None
  /\ truthy (current wt) = true
  /\ exists encoded lat lon forecastJson,
       encodeURIComponent rt query = Ok encoded
       /\ to_string rt (latitude wt) = Ok lat
       /\ to_string rt (longitude wt) = Ok lon
       /\ requests evs = [geoUrl encoded; forecastUrl lat lon]
       /\ fetch rt (S (requests_issued (log w))) (forecastUrl lat lon) = json_ok forecastJson
       /\ get_prop rt forecastJson (PName (js "current_weather")) = Ok (current wt)
       /\ map_href rt wt = Ok (osmUrl lat lon).
Proof.
  intros w'. subst w'. run_handlers.
  all: intros Hev; emitted_inv; subst evs; cbn [requests].
  all: intros Hw; try discriminate Hw; injection Hw as <-.
  cbn [current latitude longitude].
  split; [reflexivity | ]. split.
  - match goal with H : negb (truthy _) = false |- _ => now apply negb_false_iff in H end.
  - repeat match goal with
      | H : negb (ok ?r) = false |- _ =>
          apply negb_false_iff in H; destruct r as [? ?]; cbn [ok body] in *
      end.
    subst.
    do 4 eexists. repeat split; try eassumption; try reflexivity.
    unfold map_href. cbn [latitude longitude].
    repeat match goal with H : to_string _ _ = Ok _ |- _ => rewrite H end.
    reflexivity.
Qed.

(** The log of a run accounts for the state: replaying its events on the
    state before gives the state after. *)
Lemma log_accounts_for_state (w : World) (query : jsstring) :
  exists evs,
    emitted w (after (fetchWeatherForCity rt query) w) evs
    /\ ui (after (fetchWeatherForCity rt query) w) = replay evs (ui w)
    /\ searching_at_requests evs (ui w) = true.
Proof.
  run_handlers.
  all: eexists; split; [emitted_inv; reflexivity | split; reflexivity].
Qed.

(** X8.  Whenever a run issues a request, and so for as long as it waits for the
    answer, the component is loading and shows neither the error nor the
    weather of an earlier search: both were cleared before the first request
    and nothing is stored until the last answer has come. *)
Theorem waiting_state_is_clean
    (w : World) (query : jsstring) (evs before rest : list Event) (url : jsstring) :
  emitted w (after (fetchWeatherForCity rt query) w) evs ->
  evs = before ++ EvFetch url :: rest ->
  let s := replay before (ui w) in
  loading s = true /\ error s = None /\ weather s = None
  /\ controls s
     = {| input_value := city (ui w); button_disabled := true;
          button_label := js "Searching..."; error_box := None; card_shown := false |}.
Proof.
  intros Hev Hsplit s.
  destruct (log_accounts_for_state w query) as (evs' & Hev' & _ & Hall).
  assert (evs' = evs) as ->.
  { unfold emitted in *. rewrite Hev in Hev'. apply app_inv_tail in Hev'.
    apply (f_equal (@rev Event)) in Hev'. now rewrite !rev_involutive in Hev'. }
  pose proof (searching_at_requests_sound _ _ _ _ _ Hall Hsplit) as Hs.
  fold s in Hs. unfold searching in Hs.
  apply andb_true_iff in Hs as [[Hl He]%andb_true_iff Hw].
  assert (Hcity : city s = city (ui w)) by apply replay_keeps_city.
  unfold controls. rewrite Hcity, Hl.
  destruct (error s), (weather s); try discriminate. repeat split.
Qed.

End Screen.

(** ** Validation and the query that is searched *)

Lemma trim_start_nil_iff (s : jsstring) :
  trim_start s = [] <-> forallb is_whitespace s = true.
Proof.
  split; [ | apply trim_start_whitespace ].
  induction s as [ | c s IH ]; cbn [trim_start forallb]; [reflexivity | ].
  destruct (is_whitespace c); [exact IH | discriminate].
Qed.

Lemma trim_start_head (s : jsstring) (c : N) (rest : jsstring) :
  trim_start s = c :: rest -> is_whitespace c = false.
Proof.
  induction s as [ | c' s IH ]; cbn [trim_start]; [discriminate | ].
  destruct (is_whitespace c') eqn:Hc'; [exact IH | ]. now intros [= <- _].
Qed.

Lemma trim_start_skip (pre s : jsstring) :
  forallb is_whitespace pre = true -> trim_start (pre ++ s) = trim_start s.
Proof.
  induction pre as [ | c pre IH ]; cbn [forallb app trim_start]; [reflexivity | ].
  intros [Hc Hpre]%andb_true_iff. rewrite Hc. auto.
Qed.

Lemma trim_start_app (s t : jsstring) :
  trim_start s <> [] -> trim_start (s ++ t) = trim_start s ++ t.
Proof.
  induction s as [ | c s IH ]; cbn [app trim_start]; [congruence | ].
  destruct (is_whitespace c); [exact IH | reflexivity].
Qed.

Lemma forallb_rev {A} (f : A -> bool) (l : list A) : forallb f (rev l) = forallb f l.
Proof.
  induction l as [ | x l IH ]; [reflexivity | ].
  cbn [rev forallb]. rewrite forallb_app, IH. cbn [forallb]. rewrite andb_true_r.
  apply andb_comm.
Qed.

Lemma trim_nil_iff (s : jsstring) : trim s = [] <-> forallb is_whitespace s = true.
Proof.
  split; [ | apply trim_whitespace ].
  unfold trim. intros H.
  assert (H' : trim_start (rev (trim_start s)) = []).
  { apply (f_equal (@rev N)) in H. now rewrite rev_involutive in H. }
  apply trim_start_nil_iff in H'. rewrite forallb_rev in H'.
  apply trim_start_nil_iff.
  destruct (trim_start s) as [ | c rest ] eqn:Hs; [reflexivity | ].
  apply trim_start_head in Hs. cbn [forallb] in H'. rewrite Hs in H'. discriminate.
Qed.

(** White space around a query does not change what [trim] returns. *)
Lemma trim_padding (pre s post : jsstring) :
  forallb is_whitespace pre = true -> forallb is_whitespace post = true ->
  trim (pre ++ s ++ post) = trim s.
Proof.
  intros Hpre Hpost. unfold trim. rewrite (trim_start_skip pre) by assumption.
  destruct (trim_start s) as [ | c rest ] eqn:Hs.
  - apply trim_start_nil_iff in Hs.
    assert (Hall : trim_start (s ++ post) = []).
    { apply trim_start_nil_iff. rewrite forallb_app, Hs. exact Hpost. }
    now rewrite Hall.
  - rewrite trim_start_app by (rewrite Hs; discriminate). rewrite Hs.
    rewrite rev_app_distr. rewrite trim_start_skip; [reflexivity | ].
    now rewrite forallb_rev.
Qed.

Lemma str_eqb_nil (s : jsstring) : str_eqb s [] = true <-> s = [].
Proof. destruct s; cbn; split; congruence. Qed.

Section Validation.

Variable rt : Runtime.

Lemma handleSubmit_nonblank (w : World) :
  trim (city (ui w)) <> [] ->
  after (handleSubmit rt) w
  = after (fetchWeatherForCity rt (trim (city (ui w))))
      {| ui := ui w; log := EvPreventDefault :: log w |}.
Proof.
  intros Hq. unfold after, handleSubmit, call, call_async, read_city, preventDefault, emit,
    return_, mbind, M_bind, mret, M_ret.
  cbn [ui log fst snd].
  destruct (str_eqb (trim (city (ui w))) []) eqn:Hblank.
  - now apply str_eqb_nil in Hblank.
  - cbn [fst snd]. now destruct w as [[? ? ? ?] ?].
Qed.

(** X11.  Only blank queries are rejected by the validation.  A query with
    any character that is not white space is never rejected: the handler
    starts a search, and the search is for the query with the white space at
    both ends removed, which is not empty and neither begins nor ends with
    white space. *)
Theorem nonblank_query_is_searched (w : World) :
  forallb is_whitespace (city (ui w)) = false ->
  let q := trim (city (ui w)) in
  after (handleSubmit rt) w
  = after (fetchWeatherForCity rt q) {| ui := ui w; log := EvPreventDefault :: log w |}
  /\ (exists first, head q = Some first /\ is_whitespace first = false)
  /\ (exists final, last q = Some final /\ is_whitespace final = false).
Proof.
  intros Hnonblank q.
  assert (Hq : q <> []).
  { intros Hnil. apply trim_nil_iff in Hnil. congruence. }
  split; [now apply handleSubmit_nonblank | ]. split.
  - subst q. unfold trim in *.
    destruct (trim_start (rev (trim_start (city (ui w))))) as [ | c rest ] eqn:Hr;
      [contradiction | ].
    cbn [rev] in *.
    destruct (trim_start (city (ui w))) as [ | d rest' ] eqn:Hs; [discriminate | ].
    pose proof (trim_start_head _ _ _ Hs) as Hd.
    destruct (rev rest) as [ | x xs ] eqn:Hrev.
    + cbn. exists c. split; [reflexivity | ].
      assert (rest = []) as -> by (apply (f_equal (@rev N)) in Hrev;
                                   now rewrite rev_involutive in Hrev).
      now apply trim_start_head in Hr.
    + cbn. exists x. split; [reflexivity | ].
      assert (Hsuffix : exists pre, rev (d :: rest') = pre ++ c :: rest).
      { clear -Hr. generalize dependent (rev (d :: rest')). intros l.
        induction l as [ | y l IH ]; cbn [trim_start]; [discriminate | ].
        destruct (is_whitespace y).
        - intros H. destruct (IH H) as [pre ->]. now exists (y :: pre).
        - intros [= -> ->]. now exists []. }
      destruct Hsuffix as [pre Hpre].
      apply (f_equal (@rev N)) in Hpre. rewrite rev_involutive, rev_app_distr in Hpre.
      cbn [rev] in Hpre. rewrite Hrev in Hpre. cbn in Hpre. injection Hpre as -> _.
      exact Hd.
  - subst q. unfold trim in *.
    destruct (trim_start (rev (trim_start (city (ui w))))) as [ | c rest ] eqn:Hr;
      [contradiction | ].
    exists c. split.
    + cbn [rev]. now rewrite last_snoc.
    + now apply trim_start_head in Hr.
Qed.

(** X12.  White space before and after the query makes no difference to what a
    submission leaves behind: the same weather, the same error, the same
    number of requests. *)
Theorem surrounding_whitespace_ignored (w : World) (pre post : jsstring) :
  forallb is_whitespace pre = true ->
  forallb is_whitespace post = true ->
  same_outcome
    (after (handleSubmit rt)
       {| ui := {| city := pre ++ city (ui w) ++ post; weather := weather (ui w);
                   loading := loading (ui w); error := error (ui w) |};
          log := log w |})
    (after (handleSubmit rt) w).
Proof.
  intros Hpre Hpost.
  set (padded := {| ui := _; log := log w |}).
  assert (Htrim : trim (city (ui padded)) = trim (city (ui w)))
    by now apply trim_padding.
  destruct (forallb is_whitespace (city (ui w))) eqn:Hblank.
  - assert (Hblank' : forallb is_whitespace (city (ui padded)) = true).
    { apply trim_nil_iff. rewrite Htrim. now apply trim_nil_iff. }
    unfold after, handleSubmit, call, call_async, read_city, preventDefault, setError, emit,
      return_, mbind, M_bind, mret, M_ret.
    cbn [ui log fst snd].
    rewrite (trim_whitespace _ Hblank), (trim_whitespace _ Hblank').
    cbn [str_eqb ui log fst snd]. repeat split.
  - assert (Hq : trim (city (ui w)) <> []).
    { intros Hnil. apply trim_nil_iff in Hnil. congruence. }
    rewrite !handleSubmit_nonblank by (rewrite ?Htrim; exact Hq).
    rewrite Htrim. now apply outcome_replaced.
Qed.

End Validation.

(** ** What is on screen after a handler has run *)

Lemma truthy_text_kept (text : jsstring) :
  text <> [] -> (if str_eqb text [] then None else Some text) = Some text.
Proof. destruct text; [contradiction | reflexivity]. Qed.

Section AfterRun.

Variable rt : Runtime.

(** X9.  After any submission, whatever the state before and whatever the network
    answers, a stored error is never the empty string, so that the error box,
    which shows truthy errors only, shows every stored error; and the text of
    the query box is as it was. *)
Theorem every_error_is_shown (w : World) :
  let s' := ui (after (handleSubmit rt) w) in
  error_box (controls s') = error s'
  /\ input_value (controls s') = city (ui w).
Proof.
  intros s'. subst s'. run_handlers.
  all: unfold controls; cbn [error_box input_value error city]; split; [ | reflexivity].
  all: try reflexivity.
  all: apply truthy_text_kept; try (apply or_else_nonempty); discriminate.
Qed.



End AfterRun.

(** ** The card *)

Lemma strict_equal_int_inject (k j : Z) :
  strict_equal_int (JNum (NumFinite (inject_Z k))) j = (k =? j).
Proof.
  unfold strict_equal_int, Qeq_bool, inject_Z. cbn [Qnum Qden].
  now rewrite !Z.mul_1_r.
Qed.

Lemma includes_value_inject (xs : list Z) (k : Z) :
  includes_value xs (JNum (NumFinite (inject_Z k))) = includes xs k.
Proof.
  unfold includes_value, includes. induction xs as [ | j xs IH ]; [reflexivity | ].
  cbn [existsb]. now rewrite strict_equal_int_inject, IH.
Qed.

Lemma weatherCodeToEmoji_value_integer (k : Z) :
  weatherCodeToEmoji_value (JNum (NumFinite (inject_Z k))) = weatherCodeToEmoji k.
Proof.
  unfold weatherCodeToEmoji_value, weatherCodeToEmoji.
  now rewrite !strict_equal_int_inject, !includes_value_inject.
Qed.

Lemma weatherCodeToEmoji_value_other (v : JsValue) :
  (forall n, v <> JNum n) -> weatherCodeToEmoji_value v = emoji_default.
Proof.
  intros Hv. destruct v; try reflexivity. now destruct (Hv n).
Qed.

Section Card.

Variable rt : Runtime.
Variable h : DisplayHost.

(** X13.  The symbol on the card compares the weather code strictly.  A payload
    whose [weathercode] is the number [code] gets the symbol of [code]; a
    [weathercode] that is not a number (the string "3", say) and a missing one
    get the default symbol, with no conversion and no error. *)
Theorem card_symbol_is_strict (wt : Weather) (fields : list (jsstring * JsValue)) :
  current wt = JObj fields ->
  (forall code,
      obj_lookup (js "weathercode") fields = Some (JNum (NumFinite (inject_Z code))) ->
      card_symbol rt wt = Ok (weatherCodeToEmoji code))
  /\ (forall v,
      obj_lookup (js "weathercode") fields = Some v ->
      (forall n, v <> JNum n) ->
      card_symbol rt wt = Ok emoji_default)
  /\ (obj_lookup (js "weathercode") fields = None ->
      card_symbol rt wt = Ok emoji_default).
Proof.
  intros Hcur. unfold card_symbol. rewrite Hcur. cbn [get_prop]. repeat split.
  - intros code ->. cbn. now rewrite weatherCodeToEmoji_value_integer.
  - intros v -> Hv. cbn. now rewrite weatherCodeToEmoji_value_other.
  - intros ->. reflexivity.
Qed.

(** X14.  The orchestrator stores the coordinates of the candidate without
    checking what they are; the search succeeds as soon as they convert to
    text.  The coordinates line of the card, which calls [toFixed] on them,
    can be shown exactly when both were JSON numbers, and throws otherwise:
    for coordinates given as strings, for instance. *)
Theorem coordinates_are_not_checked
    (w : World) (query encoded : jsstring) (gfields tfields : list (jsstring * JsValue))
    (others : list JsValue) (name country : jsstring) (admin1 : option jsstring)
    (lat lon : JsValue) (slat slon : jsstring) (forecastJson payload : JsValue) :
  encodeURIComponent rt query = Ok encoded ->
  fetch rt (requests_issued (log w)) (geoUrl encoded) = json_ok (JObj gfields) ->
  obj_lookup (js "results") gfields = Some (JArr (JObj tfields :: others)) ->
  obj_lookup (js "latitude") tfields = Some lat ->
  obj_lookup (js "longitude") tfields = Some lon ->
  obj_lookup (js "name") tfields = Some (JStr name) ->
  obj_lookup (js "country") tfields = Some (JStr country) ->
  obj_lookup (js "admin1") tfields = option_map JStr admin1 ->
  to_string rt lat = Ok slat ->
  to_string rt lon = Ok slon ->
  fetch rt (S (requests_issued (log w))) (forecastUrl slat slon) = json_ok forecastJson ->
  get_prop rt forecastJson (PName (js "current_weather")) = Ok payload ->
  truthy payload = true ->
  exists wt,
    weather (ui (after (fetchWeatherForCity rt query) w)) = Some wt
    /\ latitude wt = lat
    /\ longitude wt = lon
    /\ ((exists text, coords_line rt h wt = Ok text)
        <-> (exists n m, lat = JNum n /\ lon = JNum m)).
Proof.
  intros Henc Hgeo Hres Hlat Hlon Hname Hcountry Hadmin Hslat Hslon Hfc Hpayload Htruthy.
  rewrite (success_stores_weather rt w query encoded gfields tfields others name country
             admin1 lat lon slat slon forecastJson payload) by assumption.
  cbn [weather]. eexists. split; [reflexivity | ]. cbn [latitude longitude].
  split; [reflexivity | ]. split; [reflexivity | ].
  unfold coords_line. cbn [latitude longitude]. split.
  - intros [text Hline]. destruct lat, lon; try discriminate Hline; eauto.
  - intros (n & m & -> & ->). eexists. reflexivity.
Qed.

End Card.

(** ** More on the classifier *)

Lemma known_code_facts (code : Z) (text : jsstring) :
  weatherCodeMap !! code = Some text ->
  text <> js "Unknown" /\ 0 <= code <= 99 /\ weatherCodeToEmoji code <> emoji_default.
Proof.
  unfold weatherCodeMap. intros H%elem_of_list_to_map_2.
  repeat (apply elem_of_cons in H as [ [= -> ->] | H ];
          [ split; [vm_compute; discriminate | split; [lia | vm_compute; discriminate] ] | ]).
  now apply elem_of_nil in H.
Qed.

(** X15.  The two classifiers recognise the same codes: a code gets the default
    symbol exactly when its description is "Unknown", for every integer and
    not only from 0 to 99; and every code outside 0..99 is unknown to both. *)
Theorem classifiers_recognise_same_codes (code : Z) :
  (weatherCodeToEmoji code = emoji_default <-> weatherCodeToText code = js "Unknown")
  /\ (code < 0 \/ 99 < code ->
      weatherCodeToEmoji code = emoji_default /\ weatherCodeToText code = js "Unknown").
Proof.
  unfold weatherCodeToText.
  destruct (weatherCodeMap !! code) as [text | ] eqn:Hlookup; cbn [default].
  - destruct (known_code_facts code text Hlookup) as (Htext & Hrange & Hsymbol).
    split; [split; intros; contradiction | lia].
  - assert (Hdefault : weatherCodeToEmoji code = emoji_default).
    { destruct (decide (weatherCodeToEmoji code = emoji_default)) as [Heq | Hne];
        [assumption | ].
      apply emoji_known_text_known in Hne. rewrite Hlookup in Hne. now destruct Hne. }
    split; [split; auto | auto].
Qed.

Lemma first_match_cases (rules : list Rule) (code : Z) :
  (first_match rules code = emoji_default
   /\ forall r, r ∈ rules -> includes r.1 code = false)
  \/ exists r, r ∈ rules /\ includes r.1 code = true /\ first_match rules code = r.2.
Proof.
  induction rules as [ | [codes symbol] rest IH ]; cbn [first_match].
  - left. split; [reflexivity | ]. intros r Hr. now apply elem_of_nil in Hr.
  - destruct (includes codes code) eqn:Hin.
    + right. exists (codes, symbol). repeat split; [left | assumption].
    + destruct IH as [[Hd Hnone] | (r & Hr & Hin' & Hfm)].
      * left. split; [assumption | ].
        intros r [-> | Hr]%elem_of_cons; [assumption | auto].
      * right. exists r. repeat split; [now right | assumption | assumption].
Qed.

Lemma disjoint_same_rule (rules : list Rule) (code : Z) (r r' : Rule) :
  pairwise_disjoint rules -> r ∈ rules -> r' ∈ rules ->
  includes r.1 code = true -> includes r'.1 code = true -> r = r'.
Proof.
  induction rules as [ | x rest IH ]; cbn [pairwise_disjoint].
  - intros _ Hr. now apply elem_of_nil in Hr.
  - intros [Hx Hrest] [-> | Hr]%elem_of_cons [-> | Hr']%elem_of_cons Hin Hin'.
    + reflexivity.
    + rewrite Forall_forall in Hx. destruct (Hx r' Hr' code Hin Hin').
    + rewrite Forall_forall in Hx. destruct (Hx r Hr code Hin' Hin).
    + now apply IH.
Qed.

Lemma same_symbol_same_rule (rules : list Rule) (r r' : Rule) :
  NoDup (rules.*2) -> r ∈ rules -> r' ∈ rules -> r.2 = r'.2 -> r = r'.
Proof.
  induction rules as [ | x rest IH ]; cbn [fmap list_fmap].
  - intros _ Hr. now apply elem_of_nil in Hr.
  - intros [Hx Hnd]%NoDup_cons [-> | Hr]%elem_of_cons [-> | Hr']%elem_of_cons Heq.
    + reflexivity.
    + destruct Hx. rewrite Heq. now apply list_elem_of_fmap_2.
    + destruct Hx. rewrite <- Heq. now apply list_elem_of_fmap_2.
    + now apply IH.
Qed.

Lemma emoji_symbols_distinct : NoDup (emoji_default :: emoji_rules.*2).
Proof.
  unfold emoji_rules. cbn [fmap list_fmap snd].
  repeat (apply NoDup_cons; split;
          [ rewrite ?not_elem_of_cons; repeat split;
            try (vm_compute; discriminate); apply not_elem_of_nil | ]).
  apply NoDup_nil_2.
Qed.

(** X16.  Each symbol stands for one rule: a code gets the symbol of a rule exactly
    when it is in the set of that rule, and the default symbol exactly when
    it is in none of the eight sets. *)
Theorem symbol_identifies_rule (code : Z) (r : Rule) :
  r ∈ emoji_rules ->
  (weatherCodeToEmoji code = r.2 <-> includes r.1 code = true)
  /\ (weatherCodeToEmoji code = emoji_default
      <-> forall r', r' ∈ emoji_rules -> includes r'.1 code = false).
Proof.
  intros Hr. rewrite <- weatherCodeToEmoji_first_match.
  pose proof emoji_symbols_distinct as [Hdefault Hnd]%NoDup_cons.
  assert (Hnot_default : forall r', r' ∈ emoji_rules -> r'.2 <> emoji_default).
  { intros r' Hr' Heq. apply Hdefault. rewrite <- Heq. now apply list_elem_of_fmap_2. }
  destruct (first_match_cases emoji_rules code) as [[Hd Hnone] | (r0 & Hr0 & Hin0 & Hfm)].
  - rewrite Hd. split; split.
    + intros Heq. symmetry in Heq. now destruct (Hnot_default r Hr).
    + intros Hin. rewrite (Hnone r Hr) in Hin. discriminate.
    + intros _. exact Hnone.
    + reflexivity.
  - rewrite Hfm. split; split.
    + intros Heq. now rewrite <- (same_symbol_same_rule emoji_rules r0 r Hnd Hr0 Hr Heq).
    + intros Hin.
      now rewrite (disjoint_same_rule emoji_rules code r0 r emoji_rules_disjoint Hr0 Hr Hin0 Hin).
    + intros Heq. now destruct (Hnot_default r0 Hr0).
    + intros Hnone. rewrite (Hnone r0 Hr0) in Hin0. discriminate.
Qed.

(** ** The further properties at concrete inputs *)

Lemma unencodable_query_is_reported_witness :
  error (ui (after (fetchWeatherForCity strict_encoding_host [0xD83C]%N)
               (initial_world [0xD83C]%N)))
  = Some (js "URI malformed").
Proof.
  rewrite (unencodable_query_is_reported strict_encoding_host (initial_world [0xD83C]%N)
             [0xD83C]%N (Error_ (js "URI malformed")) eq_refl).
  reflexivity.
Defined.

Lemma rejection_is_reported_witness :
  error (ui (after (fetchWeatherForCity (example_host network_down http_failure) (js "London"))
               (initial_world (js "London"))))
  = Some (js "Failed to fetch").
Proof.
  pose (rt := example_host network_down http_failure).
  pose (w := initial_world (js "London")).
  pose (evs := rev (log (after (fetchWeatherForCity rt (js "London")) w))).
  apply (rejection_is_reported rt w (js "London") evs 0 (geoUrl (js "London"))
           (Error_ (js "Failed to fetch")));
    [vm_compute; reflexivity | reflexivity | reflexivity].
Defined.

Lemma null_body_is_a_type_error_witness :
  weather (ui (after (fetchWeatherForCity (example_host (json_ok JNull) http_failure)
                        (js "London"))
                 (initial_world (js "London"))))
  = None
  /\ weather (ui (after (fetchWeatherForCity
                           (example_host (json_ok london_geocoding) (json_ok JNull))
                           (js "London"))
                    (initial_world (js "London"))))
     = None.
Proof.
  split.
  - pose (rt := example_host (json_ok JNull) http_failure).
    pose (w := initial_world (js "London")).
    pose (evs := rev (log (after (fetchWeatherForCity rt (js "London")) w))).
    assert (Hev : emitted w (after (fetchWeatherForCity rt (js "London")) w) evs)
      by (vm_compute; reflexivity).
    apply (proj1 (null_body_is_a_type_error rt w (js "London") evs Hev)
             (geoUrl (js "London"))); reflexivity.
  - pose (rt := example_host (json_ok london_geocoding) (json_ok JNull)).
    pose (w := initial_world (js "London")).
    pose (evs := rev (log (after (fetchWeatherForCity rt (js "London")) w))).
    assert (Hev : emitted w (after (fetchWeatherForCity rt (js "London")) w) evs)
      by (vm_compute; reflexivity).
    apply (proj2 (null_body_is_a_type_error rt w (js "London") evs Hev)
             (forecastUrl (js "51.5") (js "-0.12"))); reflexivity.
Defined.

Lemma null_candidate_is_a_type_error_witness :
  error (ui (after (fetchWeatherForCity
                      (example_host (json_ok geocoding_with_null_candidate)
                         (json_ok london_forecast))
                      (js "London"))
               (initial_world (js "London"))))
  = Some (js "TypeError").
Proof.
  pose (rt := example_host (json_ok geocoding_with_null_candidate) (json_ok london_forecast)).
  pose (w := initial_world (js "London")).
  pose (evs := rev (log (after (fetchWeatherForCity rt (js "London")) w))).
  apply (null_candidate_is_a_type_error rt w (js "London") evs (geoUrl (js "London"))
           [ (js "results", JArr [JNull; london_candidate]) ] [london_candidate]);
    [vm_compute; reflexivity | reflexivity | reflexivity | reflexivity].
Defined.

Lemma falsy_counts_as_missing_witness :
  error (ui (after (fetchWeatherForCity
                      (example_host (json_ok geocoding_with_zero_length) http_failure)
                      (js "London"))
               (initial_world (js "London"))))
  = Some (js "City not found. Try another name (e.g., 'Delhi', 'San Francisco').")
  /\ error (ui (after (fetchWeatherForCity
                         (example_host (json_ok london_geocoding)
                            (json_ok (JObj [ (js "current_weather", JBool false) ])))
                         (js "London"))
                  (initial_world (js "London"))))
     = Some (js "No current weather available").
Proof.
  split.
  - pose (rt := example_host (json_ok geocoding_with_zero_length) http_failure).
    pose (w := initial_world (js "London")).
    pose (evs := rev (log (after (fetchWeatherForCity rt (js "London")) w))).
    assert (Hev : emitted w (after (fetchWeatherForCity rt (js "London")) w) evs)
      by (vm_compute; reflexivity).
    apply (proj1 (falsy_counts_as_missing rt w (js "London") evs Hev)
             (geoUrl (js "London")) geocoding_with_zero_length
             (JObj [ (js "length", JNum (NumFinite 0)) ]));
      [reflexivity | reflexivity | reflexivity | ].
    right. exists (JNum (NumFinite 0)). split; reflexivity.
  - pose (rt := example_host (json_ok london_geocoding)
                  (json_ok (JObj [ (js "current_weather", JBool false) ]))).
    pose (w := initial_world (js "London")).
    pose (evs := rev (log (after (fetchWeatherForCity rt (js "London")) w))).
    assert (Hev : emitted w (after (fetchWeatherForCity rt (js "London")) w) evs)
      by (vm_compute; reflexivity).
    apply (proj2 (falsy_counts_as_missing rt w (js "London") evs Hev)
             (forecastUrl (js "51.5") (js "-0.12"))
             (JObj [ (js "current_weather", JBool false) ]) (JBool false));
      reflexivity.
Defined.

Lemma stored_weather_provenance_witness :
  map_href (example_host (json_ok london_geocoding) (json_ok london_forecast)) london_weather
  = Ok (js "https://www.openstreetmap.org/?mlat=51.5&mlon=-0.12#map=10/51.5/-0.12")
  /\ truthy (current london_weather) = true.
Proof.
  pose (rt := example_host (json_ok london_geocoding) (json_ok london_forecast)).
  pose (w := initial_world (js "London")).
  pose (evs := rev (log (after (fetchWeatherForCity rt (js "London")) w))).
  destruct (stored_weather_provenance rt w (js "London") evs london_weather)
    as (_ & Htruthy & _); [vm_compute; reflexivity | vm_compute; reflexivity | ].
  split; [vm_compute; reflexivity | exact Htruthy].
Defined.

Lemma waiting_state_is_clean_witness :
  loading (replay [EvSetLoading true; EvSetError None; EvSetWeather None]
             (ui (world_showing_london (js "London"))))
  = true
  /\ weather (replay [EvSetLoading true; EvSetError None; EvSetWeather None]
                (ui (world_showing_london (js "London"))))
     = None.
Proof.
  pose (rt := example_host (json_ok london_geocoding) (json_ok london_forecast)).
  pose (w := world_showing_london (js "London")).
  pose (evs := rev (log (after (fetchWeatherForCity rt (js "London")) w))).
  destruct (waiting_state_is_clean rt w (js "London") evs
              [EvSetLoading true; EvSetError None; EvSetWeather None]
              [ EvFetch (forecastUrl (js "51.5") (js "-0.12"));
                EvSetWeather (Some london_weather); EvSetLoading false ]
              (geoUrl (js "London")))
    as (Hl & _ & Hw & _); [vm_compute; reflexivity | vm_compute; reflexivity | ].
  split; assumption.
Defined.

Lemma nonblank_query_is_searched_witness :
  forallb is_whitespace (city (ui (initial_world (js "  London ")))) = false
  /\ head (trim (js "  London ")) = Some 76%N.
Proof.
  split; [reflexivity | ].
  destruct (nonblank_query_is_searched (example_host http_failure http_failure)
              (initial_world (js "  London ")) eq_refl) as (_ & _ & _).
  reflexivity.
Defined.

Lemma surrounding_whitespace_ignored_witness :
  weather (ui (after (handleSubmit
                        (example_host (json_ok london_geocoding) (json_ok london_forecast)))
                 (initial_world (js "  London "))))
  = weather (ui (after (handleSubmit
                          (example_host (json_ok london_geocoding) (json_ok london_forecast)))
                   (initial_world (js "London")))).
Proof.
  apply (surrounding_whitespace_ignored
           (example_host (json_ok london_geocoding) (json_ok london_forecast))
           (initial_world (js "London")) (js "  ") (js " ") eq_refl eq_refl).
Defined.


Lemma card_symbol_is_strict_witness :
  card_symbol (example_host http_failure http_failure) london_weather = Ok emoji_overcast.
Proof.
  apply (proj1 (card_symbol_is_strict (example_host http_failure http_failure) london_weather
                  [ (js "temperature", JNum (NumFinite 15));
                    (js "windspeed", JNum (NumFinite 10));
                    (js "winddirection", JNum (NumFinite 200));
                    (js "weathercode", JNum (NumFinite 3));
                    (js "time", JStr (js "2024-01-01T12:00")) ]
                  eq_refl) 3).
  reflexivity.
Defined.

Lemma coordinates_are_not_checked_witness :
  exists wt,
    weather (ui (after (fetchWeatherForCity
                          (example_host (json_ok geocoding_with_text_coordinates)
                             (json_ok london_forecast))
                          (js "London"))
                   (initial_world (js "London"))))
    = Some wt
    /\ latitude wt = JStr (js "51.5")
    /\ coords_line (example_host (json_ok geocoding_with_text_coordinates)
                      (json_ok london_forecast))
         example_display wt
       = Raise (Error_ (js "toFixed is not a function")).
Proof.
  destruct (coordinates_are_not_checked
              (example_host (json_ok geocoding_with_text_coordinates) (json_ok london_forecast))
              example_display
              (initial_world (js "London")) (js "London") (js "London")
              [ (js "results", JArr [london_candidate_as_text]) ]
              [ (js "latitude", JStr (js "51.5"));
                (js "longitude", JStr (js "-0.12"));
                (js "name", JStr (js "London"));
                (js "country", JStr (js "United Kingdom")) ]
              [] (js "London") (js "United Kingdom") None
              (JStr (js "51.5")) (JStr (js "-0.12"))
              (js "51.5") (js "-0.12") london_forecast london_current)
    as (wt & Hstored & Hlat & Hlon & _); try reflexivity.
  exists wt. split; [exact Hstored | ]. split; [exact Hlat | ].
  unfold coords_line. rewrite Hlat. reflexivity.
Defined.

Lemma symbol_identifies_rule_witness :
  ([95; 96; 99], emoji_thunderstorm) ∈ emoji_rules
  /\ (weatherCodeToEmoji 96 = emoji_thunderstorm <-> includes [95; 96; 99] 96 = true).
Proof.
  assert (Hin : ([95; 96; 99], emoji_thunderstorm) ∈ emoji_rules).
  { unfold emoji_rules. rewrite !elem_of_cons. do 7 right. now left. }
  split; [exact Hin | ].
  exact (proj1 (symbol_identifies_rule 96 ([95; 96; 99], emoji_thunderstorm) Hin)).
Defined.

Lemma classifiers_recognise_same_codes_witness :
  (100 < 0 \/ 99 < 100)
  /\ weatherCodeToEmoji 100 = emoji_default
  /\ weatherCodeToText 100 = js "Unknown".
Proof.
  assert (Hout : 100 < 0 \/ 99 < 100) by (right; lia).
  split; [exact Hout | ].
  exact (proj2 (classifiers_recognise_same_codes 100) Hout).
Defined.
